(** * A filesystem-backed JSON document store (main.go): model and properties

    The Go program keeps every record as [<dir>/<collection>/<resource>.json].
    This development embeds the storage driver ([New], [Write], [Read],
    [ReadAll], [Delete], [getOrCreateMutex], [stat]) as state-passing
    functions over an explicit model of the file system, and proves the
    properties of the driver against that model. *)

From Stdlib Require Import Ascii String List.
From stdpp Require Import base option list sorting gmap strings fin_maps.
Import ListNotations.
Local Open Scope string_scope.
Local Open Scope list_scope.

(** ** Errors and results *)

(** The [errno] values the modelled system calls can produce. *)
Inductive Errno : Type :=
  | ENOENT | ENOTDIR | EISDIR | EINVAL | ENOTEMPTY | EBUSY | EEXIST.

(** Go [error] values, as the program and the packages it calls build them:
    [fmt.Errorf] messages, [*os.PathError] / [*os.LinkError] (operation, path,
    errno) and the errors of [encoding/json]. *)
Inductive error : Type :=
  | Errorf (msg : string)
  | PathError (op path : string) (errno : Errno)
  | LinkError (op old new : string) (errno : Errno)
  | JSONError (msg : string).

(** A Go result pair [(x, err)]: either [err == nil] and a value, or an error. *)
Inductive result (A : Type) : Type :=
  | Ok (a : A)
  | Err (e : error).
Arguments Ok {A} a.
Arguments Err {A} e.

Definition is_ok {A} (r : result A) : bool :=
  match r with Ok _ => true | Err _ => false end.

(** ** Package [strings] and [path/filepath] (Unix) *)

Definition slash : ascii := "/"%char.

Module strings.

(** [strings.Split(s, "/")]: the pieces of [s] between separators; never
    empty, [Split("", "/") = [""]]. *)
Fixpoint Split (s : string) : list string :=
  match s with
  | EmptyString => [""]
  | String c s' =>
      if Ascii.eqb c slash then "" :: Split s'
      else match Split s' with
           | x :: l => String c x :: l
           | [] => [String c ""]
           end
  end.

(** [strings.Join(elems, sep)]. *)
Fixpoint Join (elems : list string) (sep : string) : string :=
  match elems with
  | [] => ""
  | [x] => x
  | x :: l => x +:+ sep +:+ Join l sep
  end.

End strings.

Module filepath.

(** A path is rooted when it starts with the separator. *)
Definition IsAbs (s : string) : bool :=
  match s with
  | String c _ => Ascii.eqb c slash
  | EmptyString => false
  end.

(** One step of [Clean] on the stack [out] of elements kept so far (top
    first): empty and [.] elements are dropped, [..] removes the element
    before it, is dropped at the root and is kept at the start of a
    relative path. *)
Definition clean_step (rooted : bool) (out : list string) (x : string) : list string :=
  if bool_decide (x = "") || bool_decide (x = ".") then out
  else if bool_decide (x = "..") then
    match out with
    | y :: out' => if bool_decide (y = "..") then x :: out else out'
    | [] => if rooted then [] else [x]
    end
  else x :: out.

(** [filepath.Clean]: the shortest path name equivalent to [s] by purely
    lexical processing; the empty string becomes ["."]. *)
Definition Clean (s : string) : string :=
  let rooted := IsAbs s in
  let out := rev (fold_left (clean_step rooted) (strings.Split s) []) in
  if rooted then String slash (strings.Join out "/")
  else match out with
       | [] => "."
       | _ => strings.Join out "/"
       end.

(** [filepath.Join]: leading empty elements are ignored, the rest is joined
    with the separator and cleaned; all elements empty gives [""]. *)
Fixpoint Join (elem : list string) : string :=
  match elem with
  | [] => ""
  | e :: rest =>
      if bool_decide (e = "") then Join rest
      else Clean (strings.Join elem "/")
  end.

(** [filepath.Base]: the last element of the path. *)
Definition Base (s : string) : string :=
  match rev (filter (λ x, x ≠ "") (strings.Split s)) with
  | x :: _ => x
  | [] => if IsAbs s then "/" else "."
  end.

End filepath.

(** ** The file system

    A file system is a finite map from absolute paths (the list of names from
    the root) to nodes, together with the working directory of the process.
    There are no symbolic links, permissions or special files: a node is a
    regular file with its content or a directory.  The root directory [[]]
    always exists.  Path names are resolved lexically against the working
    directory, which is exact for the names the driver builds (each is a
    [filepath.Join] result, possibly with a suffix added to its last element)
    as long as the working directory itself exists. *)

Inductive node : Type :=
  | File (data : string)
  | Dir.

Record FileSystem : Type := mkFS {
  cwd : list string;
  nodes : gmap (list string) node
}.

(** [os.FileInfo], as far as the program looks at it. *)
Record FileInfo : Type := mkFileInfo {
  Name : string;
  IsDir : bool
}.

(** There are only regular files and directories in the model. *)
Definition IsRegular (fi : FileInfo) : bool := negb (IsDir fi).

Definition is_dir (n : node) : bool :=
  match n with Dir => true | File _ => false end.

(** The node at an absolute path. *)
Definition node_at (fs : FileSystem) (p : list string) : option node :=
  match p with
  | [] => Some Dir
  | _ => nodes fs !! p
  end.

(** One step of lexical name resolution, on the stack of names walked so far
    (last name first). *)
Definition walk_step (st : list string) (x : string) : list string :=
  if bool_decide (x = "") || bool_decide (x = ".") then st
  else if bool_decide (x = "..") then tail st
  else x :: st.

(** The stack of names a path name leaves when it is walked from the root or
    from the working directory [wd]. *)
Definition walk (wd : list string) (name : string) : list string :=
  fold_left walk_step (strings.Split name)
    (if filepath.IsAbs name then [] else rev wd).

(** The absolute path a path name denotes. *)
Definition resolve (wd : list string) (name : string) : list string :=
  rev (walk wd name).

(** A name without separator is its own only piece. *)
Definition plain (x : string) : Prop := strings.Split x = [x].

(** The names [filepath.Clean] keeps on its stack. *)
Definition kept (y : string) : Prop := y ≠ "" ∧ y ≠ "." ∧ plain y.

(** The name of one directory entry. *)
Definition entry_name (x : string) : Prop := kept x ∧ x ≠ "..".

(** The proper ancestors of a path, the root first. *)
Fixpoint ancestors (p : list string) : list (list string) :=
  match p with
  | [] => []
  | x :: p' => [] :: map (cons x) (ancestors p')
  end.

(** The parent directory of a path. *)
Definition parent (p : list string) : list string := removelast p.

(** The errno of a failed lookup of [p]: a regular file on the way gives
    [ENOTDIR], otherwise the name does not exist. *)
Definition missing (fs : FileSystem) (p : list string) : Errno :=
  if existsb (λ q, match node_at fs q with Some (File _) => true | _ => false end)
       (ancestors p)
  then ENOTDIR else ENOENT.

(** The names in directory [p]: the last elements of the paths one level
    below it. *)
Definition child_name (p : list string) (q : list string) : option string :=
  match rev q with
  | x :: q' => if bool_decide (rev q' = p) then Some x else None
  | [] => None
  end.

(** Names are listed in byte order. *)
Definition String_le (x y : string) : Prop := String.leb x y = true.

#[global] Instance String_le_dec : RelDecision String_le :=
  λ x y, decide (String.leb x y = true).

Definition children (fs : FileSystem) (p : list string) : list string :=
  merge_sort String_le (omap (λ kv, child_name p kv.1) (map_to_list (nodes fs))).

Definition set_nodes (fs : FileSystem) (m : gmap (list string) node) : FileSystem :=
  mkFS (cwd fs) m.

(** [endsWithDot] of package [os]: the name is ["."] or ends in ["/."], that
    is, its last element is [.]. *)
Definition endsWithDot (name : string) : bool :=
  bool_decide (last (strings.Split name) = Some ".").

Definition endsWithDotDot (name : string) : bool :=
  bool_decide (last (strings.Split name) = Some "..").

(** Every path of the file system is made of entry names. *)
Definition wf_names (fs : FileSystem) : Prop :=
  map_Forall (λ q _, Forall entry_name q) (nodes fs).

#[global] Instance entry_name_dec x : Decision (entry_name x).
Proof. unfold entry_name, kept, plain. apply _. Defined.

#[global] Instance wf_names_dec fs : Decision (wf_names fs).
Proof. unfold wf_names. apply _. Defined.

(** The names [os.RemoveAll] can remove together with what is below them:
    not the root of the file system and not ending in [.] or [..]. *)
Definition removable (wd : list string) (name : string) : Prop :=
  name ≠ "" ∧ endsWithDot name = false ∧ endsWithDotDot name = false
  ∧ resolve wd name ≠ [].

(** What making directories does to a file system: every node stays as it
    is, and a new node is a directory below a directory. *)
Definition grows (fs fs' : FileSystem) : Prop :=
  cwd fs' = cwd fs
  ∧ nodes fs ⊆ nodes fs'
  ∧ ∀ q n, nodes fs' !! q = Some n →
      nodes fs !! q = Some n
      ∨ (nodes fs !! q = None ∧ q ≠ [] ∧ n = Dir ∧ node_at fs' (parent q) = Some Dir).

Module os.

(** [os.IsNotExist]. *)
Definition IsNotExist {A} (r : result A) : bool :=
  match r with
  | Err (PathError _ _ ENOENT) | Err (LinkError _ _ _ ENOENT) => true
  | _ => false
  end.

(** [os.Stat]. *)
Definition Stat (name : string) (fs : FileSystem) : result FileInfo :=
  if bool_decide (name = "") then Err (PathError "stat" name ENOENT)
  else
    let p := resolve (cwd fs) name in
    match node_at fs p with
    | Some n => Ok (mkFileInfo (filepath.Base name) (is_dir n))
    | None => Err (PathError "stat" name (missing fs p))
    end.

(** [os.Lstat]: there are no symbolic links, so it finds what [os.Stat]
    finds. *)
Definition Lstat (name : string) (fs : FileSystem) : result FileInfo :=
  match Stat name fs with
  | Err (PathError _ path errno) => Err (PathError "lstat" path errno)
  | r => r
  end.

(** [os.Mkdir]: creates one directory; nothing may be at the path, and its
    parent must be a directory. *)
Definition Mkdir (name : string) (fs : FileSystem) : result unit * FileSystem :=
  let fail e := (Err (PathError "mkdir" name e), fs) in
  if bool_decide (name = "") then fail ENOENT
  else
    let p := resolve (cwd fs) name in
    match node_at fs p, node_at fs (parent p) with
    | Some _, _ => fail EEXIST
    | None, Some Dir => (Ok tt, set_nodes fs (<[p := Dir]> (nodes fs)))
    | None, _ => fail (missing fs p)
    end.

(** The names [os.MkdirAll] recurses on, the nearest parent first.  The
    parent of a name is what is before its last element, without the
    separator between them ([path[:j-1]]); separators after the last element
    are skipped first, and there is no recursion on an empty parent
    ([j <= 1]).  The argument holds the pieces of the name, the last piece
    first. *)
Fixpoint parents (pieces : list string) : list string :=
  match pieces with
  | [] => []
  | x :: pieces' =>
      if bool_decide (x = "") then parents pieces'
      else
        let parent := strings.Join (rev pieces') "/" in
        if bool_decide (parent = "") then [] else parent :: parents pieces'
  end.

(** The body of [os.MkdirAll] for a name and the parents it recurses on: a
    directory that exists is left as it is and a regular file at the name is
    an [ENOTDIR] error; otherwise the parent is made first, and an error
    there is returned as it is; then [os.Mkdir] makes the directory, and its
    error counts only when no directory is at the name afterwards. *)
Fixpoint mkdirAll (name : string) (ps : list string) (fs : FileSystem)
    : result unit * FileSystem :=
  match Stat name fs with
  | Ok dir =>
      if IsDir dir then (Ok tt, fs) else (Err (PathError "mkdir" name ENOTDIR), fs)
  | Err _ =>
      let '(made, fs1) :=
        match ps with
        | [] => (Ok tt, fs)
        | parent :: ps' => mkdirAll parent ps' fs
        end in
      match made with
      | Err e => (Err e, fs1)
      | Ok _ =>
          match Mkdir name fs1 with
          | (Err e, fs2) =>
              match Lstat name fs2 with
              | Ok dir => if IsDir dir then (Ok tt, fs2) else (Err e, fs2)
              | Err _ => (Err e, fs2)
              end
          | made => made
          end
      end
  end.

(** [os.MkdirAll]: creates the directory and every missing parent; succeeds
    when the directory exists already and fails when a regular file is on
    the way, with the error of the name at which it found the file. *)
Definition MkdirAll (name : string) (fs : FileSystem) : result unit * FileSystem :=
  mkdirAll name (parents (rev (strings.Split name))) fs.

(** [os.Rename]: replaces [new] by [old] in one step.  As in the Go source,
    a [new] that is an existing directory is refused with [EEXIST] before
    the system call, unless it is [old] itself under another name. *)
Definition Rename (old new : string) (fs : FileSystem) : result unit * FileSystem :=
  let fail e := (Err (LinkError "rename" old new e), fs) in
  if bool_decide (old = "") || bool_decide (new = "") then fail ENOENT
  else
    let po := resolve (cwd fs) old in
    let pn := resolve (cwd fs) new in
    match node_at fs po, node_at fs pn with
    | None, _ => fail (missing fs po)
    | Some _, Some Dir =>
        if bool_decide (new = old) || negb (bool_decide (pn = po)) then fail EEXIST
        else (Ok tt, fs)
    | Some (File data), _ =>
        match node_at fs (parent pn) with
        | Some Dir => (Ok tt, set_nodes fs (<[pn := File data]> (delete po (nodes fs))))
        | Some (File _) => fail ENOTDIR
        | None => fail (missing fs pn)
        end
    | Some Dir, Some (File _) => fail ENOTDIR
    | Some Dir, None =>
        if bool_decide (po = []) then fail EBUSY
        else if bool_decide (po `prefix_of` pn) then fail EINVAL
        else
          match node_at fs (parent pn) with
          | Some Dir =>
              let moved := filter (λ kv, po `prefix_of` kv.1) (map_to_list (nodes fs)) in
              let kept := filter (λ kv, ¬ po `prefix_of` kv.1) (nodes fs) in
              (Ok tt, set_nodes fs
                 (foldr (λ kv m, <[pn ++ drop (length po) kv.1 := kv.2]> m) kept moved))
          | Some (File _) => fail ENOTDIR
          | None => fail (missing fs pn)
          end
    end.

(** [os.RemoveAll]: removes the path and everything below it; no error when
    the path is empty or does not exist (a path through a regular file
    counts as one that does not exist).  As in the Go source, a name that is
    [.] or ends in [/.] is refused with [EINVAL] before anything is removed
    ("The rmdir system call does not permit removing ".", so we don't permit
    it either").  The root of the file system, and a name whose last element
    is [..], lose what is below them but cannot be removed themselves. *)
Definition RemoveAll (name : string) (fs : FileSystem) : result unit * FileSystem :=
  if bool_decide (name = "") then (Ok tt, fs)
  else if endsWithDot name then (Err (PathError "RemoveAll" name EINVAL), fs)
  else
    let p := resolve (cwd fs) name in
    if bool_decide (p = []) then
      (Err (PathError "unlinkat" name EBUSY), set_nodes fs ∅)
    else if endsWithDotDot name then
      match node_at fs p with
      | Some Dir =>
          (Err (PathError "unlinkat" name ENOTEMPTY),
           set_nodes fs (filter (λ kv, ¬ (p `prefix_of` kv.1 ∧ kv.1 ≠ p)) (nodes fs)))
      | _ => (Ok tt, fs)
      end
    else (Ok tt, set_nodes fs (filter (λ kv, ¬ p `prefix_of` kv.1) (nodes fs))).

End os.

Module ioutil.

(** [ioutil.WriteFile]: creates or truncates the file and writes [data]. *)
Definition WriteFile (name data : string) (fs : FileSystem) : result unit * FileSystem :=
  let fail e := (Err (PathError "open" name e), fs) in
  if bool_decide (name = "") then fail ENOENT
  else
    let p := resolve (cwd fs) name in
    match p, node_at fs (parent p), node_at fs p with
    | [], _, _ => fail EISDIR
    | _, None, _ => fail (missing fs p)
    | _, Some (File _), _ => fail ENOTDIR
    | _, Some Dir, Some Dir => fail EISDIR
    | _, Some Dir, _ => (Ok tt, set_nodes fs (<[p := File data]> (nodes fs)))
    end.

(** [ioutil.ReadFile]: the whole content of a regular file. *)
Definition ReadFile (name : string) (fs : FileSystem) : result string :=
  if bool_decide (name = "") then Err (PathError "open" name ENOENT)
  else
    let p := resolve (cwd fs) name in
    match node_at fs p with
    | Some (File data) => Ok data
    | Some Dir => Err (PathError "read" name EISDIR)
    | None => Err (PathError "open" name (missing fs p))
    end.

(** [ioutil.ReadDir]: the entries of a directory, sorted by name. *)
Definition ReadDir (name : string) (fs : FileSystem) : result (list FileInfo) :=
  if bool_decide (name = "") then Err (PathError "open" name ENOENT)
  else
    let p := resolve (cwd fs) name in
    match node_at fs p with
    | Some Dir =>
        Ok (map (λ x, mkFileInfo x
                        (match node_at fs (p ++ [x]) with
                         | Some n => is_dir n
                         | None => false
                         end))
              (children fs p))
    | Some (File _) => Err (PathError "readdirent" name ENOTDIR)
    | None => Err (PathError "open" name (missing fs p))
    end.

End ioutil.

(** ** Package [encoding/json]

    The encoder and decoder are those of the Go library; the driver only
    passes values through them.  [MarshalIndent v prefix indent] is the
    indented JSON text of [v] or an error; [Unmarshal data dst] is the content
    of the destination [dst] after decoding [data] into it, or an error. *)

Module json.

Class Codec (value : Type) : Type := {
  MarshalIndent : value → string → string → result string;
  Unmarshal : string → value → result value
}.

End json.

(** ** The driver *)

(** A [*sync.Mutex]: the identity of a lock object on the heap. *)
Definition Mutex : Type := nat.

(** The [Driver] struct.  Its [mutex] field guards [mutexes] and has no
    content of its own; the logger only prints. *)
Record Driver : Type := mkDriver {
  mutexes : gmap string Mutex;
  dir : string
}.

(** What a call can read and change: the driver it is called on, the number
    of lock objects allocated so far, and the file system. *)
Record World : Type := mkWorld {
  driver : Driver;
  heap : nat;
  disk : FileSystem
}.

(** A Go function that may change the world and returns a value or an error. *)
Definition Go (A : Type) : Type := World → result A * World.

Definition ret {A} (a : A) : Go A := λ w, (Ok a, w).

Definition fail {A} (e : error) : Go A := λ w, (Err e, w).

(** [x, err := m; if err != nil { return err }; k x]. *)
Definition bind {A B} (m : Go A) (k : A → Go B) : Go B :=
  λ w, match m w with
       | (Ok a, w') => k a w'
       | (Err e, w') => (Err e, w')
       end.

Notation "x <- m ;; k" := (bind m (λ x, k))
  (at level 100, m at next level, right associativity).

(** The world with another file system. *)
Definition with_disk (w : World) (fs : FileSystem) : World :=
  mkWorld (driver w) (heap w) fs.

(** A call that changes the file system. *)
Definition on_disk {A} (f : FileSystem → result A * FileSystem) : Go A :=
  λ w, let '(r, fs) := f (disk w) in (r, with_disk w fs).

(** A call that only reads the file system. *)
Definition from_disk {A} (f : FileSystem → result A) : Go A :=
  λ w, (f (disk w), w).

Definition newline : string := String (ascii_of_nat 10) "".

Definition tab : string := String (ascii_of_nat 9) "".

(** [New], without the logger. *)
Definition New (dir : string) (fs : FileSystem) : result unit * World :=
  let dir := filepath.Clean dir in
  let driver := mkDriver ∅ dir in
  if is_ok (os.Stat dir fs) then (Ok tt, mkWorld driver 0 fs)
  else
    let '(r, fs') := os.MkdirAll dir fs in (r, mkWorld driver 0 fs').

(** [getOrCreateMutex]: runs under [d.mutex], so as one step. *)
Definition getOrCreateMutex (collection : string) : Go Mutex :=
  λ w,
    let d := driver w in
    match mutexes d !! collection with
    | Some m => (Ok m, w)
    | None =>
        let m := heap w in
        (Ok m, mkWorld (mkDriver (<[collection := m]> (mutexes d)) (dir d))
                 (S (heap w)) (disk w))
    end.

(** [stat]: the path as it is, else with [.json] added. *)
Definition stat (path : string) (fs : FileSystem) : result FileInfo :=
  let r := os.Stat path fs in
  if os.IsNotExist r then os.Stat (path +:+ ".json") fs else r.

Section Driver.

Context {value : Type} `{!json.Codec value}.

(** [Write].  In a run of one call after the other [mutex.Lock()] finds the
    lock free and the deferred [mutex.Unlock()] frees it on every return,
    so the pair leaves no trace in the state. *)
Definition Write (collection resource : string) (v : value) : Go unit :=
  if bool_decide (collection = "") then
    fail (Errorf "Missing collection - no place to save record!")
  else if bool_decide (resource = "") then
    fail (Errorf "Missing resource - unable to save record (no name)!")
  else
    mutex <- getOrCreateMutex collection ;;
    λ w,
      let dir := filepath.Join [dir (driver w); collection] in
      let fnlPath := filepath.Join [dir; resource +:+ ".json"] in
      let tmpPath := fnlPath +:+ ".tmp" in
      (_ <- on_disk (os.MkdirAll dir) ;;
       b <- (λ w, (json.MarshalIndent v "" tab, w)) ;;
       let b := b +:+ newline in
       _ <- on_disk (ioutil.WriteFile tmpPath b) ;;
       on_disk (os.Rename tmpPath fnlPath)) w.

(** [Read]; the result is the content of the destination [v] after the
    call. *)
Definition Read (collection resource : string) (v : value) : Go value :=
  if bool_decide (collection = "") then
    fail (Errorf "Missing collection - unable to read!")
  else if bool_decide (resource = "") then
    fail (Errorf "Missing resource - unable to read record (no name)!")
  else
    λ w,
      let record := filepath.Join [dir (driver w); collection; resource +:+ ".json"] in
      (_ <- from_disk (stat record) ;;
       b <- from_disk (ioutil.ReadFile record) ;;
       λ w, (json.Unmarshal b v, w)) w.

End Driver.

(** The loop of [ReadAll]: the first file that cannot be read ends the call
    with its error. *)
Fixpoint readRecords (dir : string) (files : list FileInfo) (records : list string)
    : Go (list string) :=
  match files with
  | [] => ret records
  | file :: files' =>
      b <- from_disk (ioutil.ReadFile (filepath.Join [dir; Name file])) ;;
      readRecords dir files' (records ++ [b])
  end.

(** [ReadAll]; the error of [ioutil.ReadDir] is dropped, [files] is then
    [nil]. *)
Definition ReadAll (collection : string) : Go (list string) :=
  if bool_decide (collection = "") then
    fail (Errorf "Missing collection - unable to read")
  else
    λ w,
      let dir := filepath.Join [dir (driver w); collection] in
      (_ <- from_disk (stat dir) ;;
       let files := match ioutil.ReadDir dir (disk w) with
                    | Ok files => files
                    | Err _ => []
                    end in
       readRecords dir files []) w.

(** [Delete]. *)
Definition Delete (collection resource : string) : Go unit :=
  let path := filepath.Join [collection; resource] in
  mutex <- getOrCreateMutex collection ;;
  λ w,
    let dir := filepath.Join [dir (driver w); path] in
    match stat dir (disk w) with
    | Err _ =>
        fail (Errorf ("unable to find file or directory named " +:+ path +:+ newline)) w
    | Ok fi =>
        if IsDir fi then on_disk (os.RemoveAll dir) w
        else if IsRegular fi then on_disk (os.RemoveAll (dir +:+ ".json")) w
        else ret tt w
    end.

(** ** Runs of calls *)

(** The four operations of the driver as calls a client can make. *)
Inductive call (value : Type) : Type :=
  | CallWrite (collection resource : string) (v : value)
  | CallRead (collection resource : string) (v : value)
  | CallReadAll (collection : string)
  | CallDelete (collection resource : string).
Arguments CallWrite {value} collection resource v.
Arguments CallRead {value} collection resource v.
Arguments CallReadAll {value} collection.
Arguments CallDelete {value} collection resource.

(** The world after a call, whatever it returned. *)
Definition run_call {value : Type} `{!json.Codec value} (c : call value) (w : World) : World :=
  match c with
  | CallWrite collection resource v => (Write collection resource v w).2
  | CallRead collection resource v => (Read collection resource v w).2
  | CallReadAll collection => (ReadAll collection w).2
  | CallDelete collection resource => (Delete collection resource w).2
  end.

Definition run_calls {value : Type} `{!json.Codec value} (cs : list (call value)) (w : World) : World :=
  fold_left (λ w c, run_call c w) cs w.

(** The registry of [w'] has every entry of the registry of [w], unchanged,
    and the root directory name is the same. *)
Definition extends (w w' : World) : Prop :=
  mutexes (driver w) ⊆ mutexes (driver w') ∧ dir (driver w) = dir (driver w').

(** A call that can only add entries to the registry. *)
Definition monotone {A} (m : Go A) : Prop := ∀ w, extends w (m w).2.

(** ** A small instance of Go values

    Booleans, which [encoding/json] writes as [true] and [false], and a
    channel, which it refuses to encode or to decode into. *)

Inductive GoValue : Type :=
  | VBool (b : bool)
  | VChan.

Definition is_space (c : ascii) : bool :=
  bool_decide (c = " "%char) || bool_decide (c = ascii_of_nat 9)
  || bool_decide (c = ascii_of_nat 10) || bool_decide (c = ascii_of_nat 13).

Fixpoint trim_left (s : string) : string :=
  match s with
  | String c s' => if is_space c then trim_left s' else s
  | EmptyString => s
  end.

Fixpoint trim_right (s : string) : string :=
  match s with
  | String c s' =>
      match trim_right s' with
      | EmptyString => if is_space c then "" else String c ""
      | t => String c t
      end
  | EmptyString => s
  end.

#[global] Instance GoValue_codec : json.Codec GoValue := {|
  json.MarshalIndent v prefix indent :=
    match v with
    | VBool true => Ok "true"
    | VBool false => Ok "false"
    | VChan => Err (JSONError "json: unsupported type: chan int")
    end;
  json.Unmarshal data dst :=
    match dst with
    | VChan => Err (JSONError "json: cannot unmarshal into Go value of type chan int")
    | VBool _ =>
        let text := trim_right (trim_left data) in
        if bool_decide (text = "true") then Ok (VBool true)
        else if bool_decide (text = "false") then Ok (VBool false)
        else if bool_decide (text = "null") then Ok dst
        else Err (JSONError "json: cannot unmarshal into Go value of type bool")
    end
|}.

(** ** Example stores

    A machine with the directory [/srv/app], in which the program runs.  One
    store is opened as [main] does, at ["./"]; the other at [/srv/data].
    The records are booleans. *)

Definition app_fs : FileSystem :=
  mkFS ["srv"; "app"] (list_to_map [(["srv"], Dir); (["srv"; "app"], Dir)]).

Definition local_store : World := (New "./" app_fs).2.

Definition data_store : World := (New "/srv/data" app_fs).2.

Definition local_store_john : World :=
  (Write "users" "john" (VBool true) local_store).2.

Definition data_store_john : World :=
  (Write "users" "john" (VBool true) data_store).2.

Definition data_store_users : World :=
  (Write "users" "paul" (VBool false) data_store_john).2.

(** A suffix that turns every last piece into an ordinary, different name. *)
Definition name_suffix (suf : string) : Prop :=
  plain suf ∧ suf ≠ "" ∧ filepath.IsAbs suf = false
  ∧ ∀ l, l +:+ suf ≠ "" ∧ l +:+ suf ≠ "." ∧ l +:+ suf ≠ "..".

(** The registry of a store in order: every lock in it was made before, no
    two names share a lock, and every lock made is in it. *)
Definition registry_ok (w : World) : Prop :=
  (∀ c m, mutexes (driver w) !! c = Some m → m < heap w)
  ∧ (∀ c1 c2 m, mutexes (driver w) !! c1 = Some m →
                mutexes (driver w) !! c2 = Some m → c1 = c2)
  ∧ size (mutexes (driver w)) = heap w.

(** ** The request handlers of [main]

    Each handler of the Fiber application, as a function of what it reads
    from the request (the body as [c.BodyParser] decoded it, or the [name]
    parameter of the route) and of the world; [db] is the driver of the
    world.  The answer is the status code and the body the handler sends:
    [c.Status(n).SendString(s)], [c.SendString(s)] and [c.JSON(x)] with
    status 200 unless set. *)

Module main.

(** The [Address] struct; a [json.Number] is the text of the number. *)
Record Address : Type := mkAddress {
  City : string;
  State : string;
  Country : string;
  Pincode : string
}.

(** The [User] struct (the field [Address] is [Address'] here). *)
Record User : Type := mkUser {
  Name : string;
  Age : string;
  Contact : string;
  Company : string;
  Address' : Address
}.

(** [var user User]: the zero value. *)
Definition zeroUser : User := mkUser "" "" "" "" (mkAddress "" "" "" "").

(** A response body: a text, a text made with an error ([%v]), or the JSON
    encoding of a user or of a list of users. *)
Inductive Body : Type :=
  | Text (s : string)
  | TextError (s : string) (e : error)
  | JSON (user : User)
  | JSONList (allUsers : list User).

Record Response : Type := mkResponse {
  Status : nat;
  Sent : Body
}.

Section Handlers.

Context `{!json.Codec User}.

(** [app.Post("/addUser", ...)]. *)
Definition addUser (parsed : result User) (w : World) : Response * World :=
  match parsed with
  | Err _ => (mkResponse 400 (Text "Error parsing request body"), w)
  | Ok user =>
      match Write "users" (Name user) user w with
      | (Err _, w') => (mkResponse 500 (Text "Error saving user data"), w')
      | (Ok _, w') => (mkResponse 201 (JSON user), w')
      end
  end.

(** [app.Delete("/deleteUser/:name", ...)]. *)
Definition deleteUser (name : string) (w : World) : Response * World :=
  if bool_decide (name = "") then
    (mkResponse 400 (Text "Name parameter is required"), w)
  else
    match Delete "users" name w with
    | (Err _, w') => (mkResponse 500 (Text "Error deleting user data"), w')
    | (Ok _, w') => (mkResponse 200 (Text "User deleted successfully"), w')
    end.

(** [app.Delete("/deleteAllUsers", ...)]. *)
Definition deleteAllUsers (w : World) : Response * World :=
  match Delete "users" "" w with
  | (Err _, w') => (mkResponse 500 (Text "Error deleting all user data"), w')
  | (Ok _, w') => (mkResponse 200 (Text "All users deleted successfully"), w')
  end.

(** [app.Get("/getUser/:name", ...)]. *)
Definition getUser (name : string) (w : World) : Response * World :=
  if bool_decide (name = "") then
    (mkResponse 400 (Text "Name parameter is required"), w)
  else
    match Read "users" name zeroUser w with
    | (Err err, w') =>
        (mkResponse 500 (TextError "Error retrieving user data: " err), w')
    | (Ok user, w') => (mkResponse 200 (JSON user), w')
    end.

(** The loop of [/getAllUsers]: each record is decoded into a fresh [User];
    the first that does not decode ends the request. *)
Fixpoint parseRecords (records : list string) (allUsers : list User)
    : result (list User) :=
  match records with
  | [] => Ok allUsers
  | record :: records' =>
      match json.Unmarshal record zeroUser with
      | Err e => Err e
      | Ok user => parseRecords records' (allUsers ++ [user])
      end
  end.

(** [app.Get("/getAllUsers", ...)]. *)
Definition getAllUsers (w : World) : Response * World :=
  match ReadAll "users" w with
  | (Err _, w') => (mkResponse 500 (Text "Error retrieving all users"), w')
  | (Ok records, w') =>
      match parseRecords records [] with
      | Err _ => (mkResponse 500 (Text "Error parsing user data"), w')
      | Ok allUsers => (mkResponse 200 (JSONList allUsers), w')
      end
  end.

End Handlers.

End main.

(** ** A small instance for [User]

    The indented encoding Go writes for a [User] whose texts need no
    escaping and whose numbers are digits; other users are outside this
    instance, which reports an error for them.  The decoder reads the texts
    of that form. *)

Definition quote : string := String (ascii_of_nat 34) "".

(** A text that is written between quotes as it is. *)
Definition simple_text (s : string) : bool :=
  forallb (λ c, let n := nat_of_ascii c in
                Nat.leb 32 n && Nat.ltb n 127
                && negb (Nat.eqb n 34) && negb (Nat.eqb n 92)
                && negb (Nat.eqb n 60) && negb (Nat.eqb n 62) && negb (Nat.eqb n 38))
    (list_ascii_of_string s).

Definition is_digit (c : ascii) : bool :=
  Nat.leb 48 (nat_of_ascii c) && Nat.leb (nat_of_ascii c) 57.

(** A number made of digits, without a leading zero. *)
Definition simple_number (s : string) : bool :=
  match list_ascii_of_string s with
  | [] => false
  | [c] => is_digit c
  | c :: l => is_digit c && negb (Nat.eqb (nat_of_ascii c) 48) && forallb is_digit l
  end.

(** An empty [json.Number] is written as [0]. *)
Definition number_text (s : string) : string := if bool_decide (s = "") then "0" else s.

Definition text_field (indent name value : string) (last : bool) : string :=
  indent +:+ quote +:+ name +:+ quote +:+ ": " +:+ quote +:+ value +:+ quote
  +:+ (if last then "" else ",").

Definition number_field (indent name value : string) (last : bool) : string :=
  indent +:+ quote +:+ name +:+ quote +:+ ": " +:+ number_text value
  +:+ (if last then "" else ",").

Definition user_lines (indent : string) (u : main.User) : list string :=
  let a := main.Address' u in
  [ "{";
    text_field indent "Name" (main.Name u) false;
    number_field indent "Age" (main.Age u) false;
    text_field indent "Contact" (main.Contact u) false;
    text_field indent "Company" (main.Company u) false;
    indent +:+ quote +:+ "Address" +:+ quote +:+ ": {";
    text_field (indent +:+ indent) "City" (main.City a) false;
    text_field (indent +:+ indent) "State" (main.State a) false;
    text_field (indent +:+ indent) "Country" (main.Country a) false;
    number_field (indent +:+ indent) "Pincode" (main.Pincode a) true;
    indent +:+ "}";
    "}" ].

Definition simple_user (u : main.User) : bool :=
  let a := main.Address' u in
  simple_text (main.Name u) && simple_text (main.Contact u)
  && simple_text (main.Company u) && simple_text (main.City a)
  && simple_text (main.State a) && simple_text (main.Country a)
  && simple_number (number_text (main.Age u))
  && simple_number (number_text (main.Pincode a)).

Fixpoint strip_prefix (p s : string) : option string :=
  match p, s with
  | EmptyString, _ => Some s
  | String a p', String b s' => if Ascii.eqb a b then strip_prefix p' s' else None
  | String _ _, EmptyString => None
  end.

Fixpoint strip_suffix (p s : string) : option string :=
  if bool_decide (s = p) then Some ""
  else match s with
       | String c s' => String c <$> strip_suffix p s'
       | EmptyString => None
       end.

(** The pieces of a text between newlines. *)
Fixpoint lines (s : string) : list string :=
  match s with
  | EmptyString => [""]
  | String c s' =>
      if Ascii.eqb c (ascii_of_nat 10) then "" :: lines s'
      else match lines s' with
           | x :: l => String c x :: l
           | [] => [String c ""]
           end
  end.

(** The value of a field line: what is after the name and before the comma. *)
Definition field_value (indent name : string) (text last : bool) (line : string)
    : option string :=
  let open := if text then quote else "" in
  let close := (if text then quote else "") +:+ (if last then "" else ",") in
  v ← strip_prefix (indent +:+ quote +:+ name +:+ quote +:+ ": " +:+ open) line
       ≫= strip_suffix close;
  if (if text then simple_text v else simple_number v) then Some v else None.

Definition read_user (data : string) : option main.User :=
  match lines (trim_right (trim_left data)) with
  | [l0; l1; l2; l3; l4; l5; l6; l7; l8; l9; l10; l11] =>
      _ ← guard (l0 = "{" ∧ l5 = tab +:+ quote +:+ "Address" +:+ quote +:+ ": {"
                 ∧ l10 = tab +:+ "}" ∧ l11 = "}");
      name ← field_value tab "Name" true false l1;
      age ← field_value tab "Age" false false l2;
      contact ← field_value tab "Contact" true false l3;
      company ← field_value tab "Company" true false l4;
      city ← field_value (tab +:+ tab) "City" true false l6;
      state ← field_value (tab +:+ tab) "State" true false l7;
      country ← field_value (tab +:+ tab) "Country" true false l8;
      pincode ← field_value (tab +:+ tab) "Pincode" false true l9;
      Some (main.mkUser name age contact company
              (main.mkAddress city state country pincode))
  | _ => None
  end.

#[global] Instance User_codec : json.Codec main.User := {|
  json.MarshalIndent u prefix indent :=
    if simple_user u then
      Ok (strings.Join (user_lines indent u) (prefix +:+ newline))
    else Err (JSONError "json: value outside the small instance");
  json.Unmarshal data dst :=
    match read_user data with
    | Some u => Ok u
    | None => Err (JSONError "json: text outside the small instance")
    end
|}.

Definition john : main.User :=
  main.mkUser "john" "23" "23344333" "Myrl Tech"
    (main.mkAddress "bangalore" "karnataka" "india" "410013").

(** ** More example stores

    The user [john]; the store at [/srv/data] after [/addUser] of [john]; and
    a file system in which [/srv/data/users] and two users exist. *)

Definition users_store : World := (main.addUser (Ok john) data_store).2.

(** ** Lemmas: path names *)

Lemma Split_nonempty s : strings.Split s ≠ [].
Proof. destruct s as [|c s]; simpl; [done|]. case_match; [done|]. by case_match. Qed.

Lemma Split_cons c s :
  Ascii.eqb c slash = false →
  ∃ x l, strings.Split s = x :: l ∧ strings.Split (String c s) = String c x :: l.
Proof.
  intros Hc. destruct (strings.Split s) as [|x l] eqn:Hs.
  - by destruct (Split_nonempty s).
  - exists x, l. split; [done|]. simpl. by rewrite Hc, Hs.
Qed.

Lemma Split_app_slash a b :
  strings.Split (a +:+ "/" +:+ b) = strings.Split a ++ strings.Split b.
Proof.
  induction a as [|c a IH]; [done|].
  change (String c a +:+ "/" +:+ b) with (String c (a +:+ "/" +:+ b)).
  simpl. destruct (Ascii.eqb c slash) eqn:Hc.
  - by rewrite IH.
  - rewrite IH. destruct (strings.Split a) as [|x l] eqn:Ha; [|done].
    by destruct (Split_nonempty a).
Qed.

Lemma Split_plain s : Forall plain (strings.Split s).
Proof.
  induction s as [|c s IH]; [by repeat constructor|].
  simpl. destruct (Ascii.eqb c slash) eqn:Hc; [by constructor|].
  destruct (strings.Split s) as [|x l] eqn:Hs; [by destruct (Split_nonempty s)|].
  inversion_clear IH as [|? ? Hx Hl]. constructor; [|done].
  unfold plain in *. simpl. by rewrite Hc, Hx.
Qed.

Lemma plain_not_abs x : plain x → filepath.IsAbs x = false.
Proof.
  destruct x as [|c x]; [done|]. unfold plain. simpl.
  destruct (Ascii.eqb c slash); [|done]. intros [=].
Qed.

Lemma Split_Join l : l ≠ [] → Forall plain l → strings.Split (strings.Join l "/") = l.
Proof.
  induction l as [|x l IH]; [done|]. intros _ Hl.
  inversion_clear Hl as [|? ? Hx Hl']. destruct l as [|y l]; [exact Hx|].
  change (strings.Join (x :: y :: l) "/") with (x +:+ "/" +:+ strings.Join (y :: l) "/").
  rewrite Split_app_slash, Hx, IH; done.
Qed.

Lemma IsAbs_app a b : a ≠ "" → filepath.IsAbs (a +:+ b) = filepath.IsAbs a.
Proof. by destruct a. Qed.

Lemma IsAbs_Join x l : x ≠ "" → filepath.IsAbs (strings.Join (x :: l) "/") = filepath.IsAbs x.
Proof. intros Hx. destruct l; [done|]. by apply IsAbs_app. Qed.

Lemma walk_step_kept st y : kept y → y ≠ ".." → walk_step st y = y :: st.
Proof.
  intros (?&?&_) ?. unfold walk_step.
  by rewrite !bool_decide_eq_false_2.
Qed.

Lemma clean_step_kept rooted st x :
  plain x → Forall kept st → Forall kept (filepath.clean_step rooted st x).
Proof.
  intros Hx Hst. unfold filepath.clean_step.
  destruct (bool_decide (x = "")) eqn:H1; [done|].
  destruct (bool_decide (x = ".")) eqn:H2; [done|]. simpl.
  apply bool_decide_eq_false in H1, H2.
  assert (kept x) by done.
  case_bool_decide.
  - destruct st as [|y st]; [destruct rooted; by repeat constructor|].
    case_bool_decide; [by constructor|]. by inversion Hst.
  - by constructor.
Qed.

Lemma clean_step_walk rooted B st x :
  (rooted = true → B = []) → Forall kept st →
  fold_left walk_step (rev (filepath.clean_step rooted st x)) B
  = walk_step (fold_left walk_step (rev st) B) x.
Proof.
  intros HB Hst. unfold filepath.clean_step.
  destruct (bool_decide (x = "") || bool_decide (x = ".")) eqn:H1.
  { unfold walk_step. by rewrite H1. }
  unfold walk_step at 2. rewrite H1.
  apply orb_false_iff in H1 as [Ha Hb]. apply bool_decide_eq_false in Ha, Hb.
  destruct (decide (x = "..")) as [H2|H2];
    [rewrite !bool_decide_eq_true_2 by done|rewrite !bool_decide_eq_false_2 by done].
  - subst x. destruct st as [|y st]; simpl.
    + destruct rooted; simpl; [by rewrite HB|done].
    + inversion_clear Hst as [|? ? Hk _]. case_bool_decide as Hy.
      * subst y. cbn [rev]. rewrite !fold_left_app. done.
      * rewrite fold_left_app. cbn [fold_left].
        by rewrite (walk_step_kept _ y).
  - simpl. rewrite fold_left_app. simpl. unfold walk_step.
    by rewrite !bool_decide_eq_false_2.
Qed.

Lemma clean_walk rooted B comps st :
  (rooted = true → B = []) → Forall plain comps → Forall kept st →
  fold_left walk_step (rev (fold_left (filepath.clean_step rooted) comps st)) B
  = fold_left walk_step comps (fold_left walk_step (rev st) B).
Proof.
  intros HB. revert st. induction comps as [|x comps IH]; intros st Hc Hst; [done|].
  inversion_clear Hc as [|? ? Hx Hc']. simpl.
  rewrite IH; [|done|by apply clean_step_kept].
  by rewrite clean_step_walk.
Qed.

Lemma clean_kept rooted comps st :
  Forall plain comps → Forall kept st →
  Forall kept (fold_left (filepath.clean_step rooted) comps st).
Proof.
  revert st. induction comps as [|x comps IH]; intros st Hc Hst; [done|].
  inversion_clear Hc. simpl. apply IH; [done|]. by apply clean_step_kept.
Qed.

Lemma IsAbs_Clean s : filepath.IsAbs (filepath.Clean s) = filepath.IsAbs s.
Proof.
  unfold filepath.Clean. destruct (filepath.IsAbs s) eqn:Hs.
  - done.
  - pose proof (clean_kept false (strings.Split s) [] (Split_plain s) (Forall_nil_2 _)) as Hk.
    apply Forall_rev in Hk.
    destruct (rev _) as [|x l]; [done|].
    inversion_clear Hk as [|? ? (Hx&_&Hp) _].
    rewrite IsAbs_Join by done. by apply plain_not_abs.
Qed.

Lemma Clean_nonempty s : filepath.Clean s ≠ "".
Proof.
  intros H. pose proof (IsAbs_Clean s) as Ha. unfold filepath.Clean in *.
  destruct (filepath.IsAbs s); [done|].
  pose proof (clean_kept false (strings.Split s) [] (Split_plain s) (Forall_nil_2 _)) as Hk.
  apply Forall_rev in Hk.
  destruct (rev _) as [|x l]; [done|].
  inversion_clear Hk as [|? ? (Hx&_&Hp) _].
  destruct l; simpl in H; [done|]. by destruct x.
Qed.

(** Cleaning a path name does not change what it denotes. *)
Lemma walk_Clean wd s : walk wd (filepath.Clean s) = walk wd s.
Proof.
  unfold walk. rewrite IsAbs_Clean.
  set (B := if filepath.IsAbs s then [] else rev wd).
  pose proof (clean_walk (filepath.IsAbs s) B (strings.Split s) []) as Hw.
  pose proof (clean_kept (filepath.IsAbs s) (strings.Split s) [] (Split_plain s)
                (Forall_nil_2 _)) as Hk.
  apply Forall_rev in Hk.
  simpl in Hw. rewrite <- Hw; [|by subst B; intros ->|apply Split_plain|done].
  unfold filepath.Clean.
  destruct (rev (fold_left _ _ _)) as [|x l] eqn:Hout.
  - by destruct (filepath.IsAbs s).
  - assert (Forall plain (x :: l)) as Hp by (eapply Forall_impl; [exact Hk|by intros ? (_&_&?)]).
    destruct (filepath.IsAbs s).
    + change (strings.Split (String slash ?j)) with ("" :: strings.Split j).
      by rewrite Split_Join.
    + by rewrite Split_Join.
Qed.

Lemma walk_slash wd a b :
  a ≠ "" → walk wd (a +:+ "/" +:+ b) = fold_left walk_step (strings.Split b) (walk wd a).
Proof.
  intros Ha. unfold walk. by rewrite IsAbs_app, Split_app_slash, fold_left_app.
Qed.

(** ** Lemmas: the registry *)

Lemma extends_refl w : extends w w.
Proof. by split. Qed.

Lemma extends_trans w1 w2 w3 : extends w1 w2 → extends w2 w3 → extends w1 w3.
Proof.
  intros [Hm Hd] [Hm' Hd']; split; [by etrans | congruence].
Qed.

Lemma monotone_ret {A} (a : A) : monotone (ret a).
Proof. intros w; apply extends_refl. Qed.

Lemma monotone_fail {A} (e : error) : monotone (@fail A e).
Proof. intros w; apply extends_refl. Qed.

Lemma monotone_bind {A B} (m : Go A) (k : A → Go B) :
  monotone m → (∀ a, monotone (k a)) → monotone (bind m k).
Proof.
  intros Hm Hk w. unfold bind. specialize (Hm w).
  destruct (m w) as [[a|e] w']; simpl in *; [|done].
  eapply extends_trans; [exact Hm | apply Hk].
Qed.

Lemma monotone_on_disk {A} (f : FileSystem → result A * FileSystem) :
  monotone (on_disk f).
Proof. intros w. unfold on_disk. by destruct (f (disk w)). Qed.

Lemma monotone_from_disk {A} (f : FileSystem → result A) : monotone (from_disk f).
Proof. intros w; apply extends_refl. Qed.

Lemma monotone_pure {A} (f : World → result A) : monotone (λ w, (f w, w)).
Proof. intros w; apply extends_refl. Qed.

Lemma monotone_getOrCreateMutex c : monotone (getOrCreateMutex c).
Proof.
  intros w. unfold getOrCreateMutex.
  destruct (mutexes (driver w) !! c) eqn:Hc; simpl; [apply extends_refl|].
  split; simpl; [by apply insert_subseteq | done].
Qed.

Lemma monotone_readRecords d files records : monotone (readRecords d files records).
Proof.
  revert records; induction files as [|file files IH]; intros records; simpl.
  - apply monotone_ret.
  - apply monotone_bind; [apply monotone_from_disk | intros b; apply IH].
Qed.

Create HintDb go discriminated.
#[global] Hint Resolve monotone_ret monotone_fail monotone_on_disk monotone_from_disk
  monotone_pure monotone_getOrCreateMutex monotone_readRecords : go.

Section Registry.

Context {value : Type} `{!json.Codec value}.

Lemma monotone_Write c r (v : value) : monotone (Write c r v).
Proof.
  unfold Write. repeat case_bool_decide; auto with go.
  apply monotone_bind; [auto with go|intros mutex].
  intros w; cbv beta zeta.
  apply monotone_bind; [auto with go|intros _].
  apply monotone_bind; [apply monotone_pure|intros b].
  apply monotone_bind; auto with go.
Qed.

Lemma monotone_Read c r (v : value) : monotone (Read c r v).
Proof.
  unfold Read. repeat case_bool_decide; auto with go.
  intros w; cbv beta zeta.
  apply monotone_bind; [auto with go|intros _].
  apply monotone_bind; [auto with go|intros b]. apply monotone_pure.
Qed.

Lemma monotone_ReadAll c : monotone (ReadAll c).
Proof.
  unfold ReadAll. case_bool_decide; auto with go.
  intros w; cbv beta zeta.
  apply monotone_bind; auto with go.
Qed.

Lemma monotone_Delete c r : monotone (Delete c r).
Proof.
  unfold Delete. apply monotone_bind; [auto with go|intros mutex].
  intros w; cbv beta zeta.
  destruct (stat _ _) as [fi|e]; [|apply monotone_fail].
  destruct (IsDir fi); [apply monotone_on_disk|].
  destruct (IsRegular fi); [apply monotone_on_disk | apply monotone_ret].
Qed.

Lemma extends_run_call (c : call value) w : extends w (run_call c w).
Proof.
  destruct c; simpl;
    [apply monotone_Write | apply monotone_Read | apply monotone_ReadAll
    | apply monotone_Delete].
Qed.

Lemma extends_run_calls (cs : list (call value)) w : extends w (run_calls cs w).
Proof.
  revert w; induction cs as [|c cs IH]; intros w; simpl; [apply extends_refl|].
  eapply extends_trans; [apply extends_run_call | apply IH].
Qed.

End Registry.

(** ** Lemmas: joined names *)

Lemma Join_cons e rest :
  e ≠ "" → filepath.Join (e :: rest) = filepath.Clean (strings.Join (e :: rest) "/").
Proof. intros He. simpl. by rewrite bool_decide_eq_false_2. Qed.

Lemma Join_nonempty e rest : e ≠ "" → filepath.Join (e :: rest) ≠ "".
Proof. intros He. rewrite Join_cons by done. apply Clean_nonempty. Qed.

Lemma walk_Join_2 wd a b :
  a ≠ "" →
  walk wd (filepath.Join [a; b]) = fold_left walk_step (strings.Split b) (walk wd a).
Proof.
  intros Ha. rewrite Join_cons by done. rewrite walk_Clean.
  by apply walk_slash.
Qed.

Lemma walk_Join_3 wd a b c :
  a ≠ "" →
  walk wd (filepath.Join [a; b; c])
  = fold_left walk_step (strings.Split c) (fold_left walk_step (strings.Split b) (walk wd a)).
Proof.
  intros Ha. rewrite Join_cons by done. rewrite walk_Clean.
  change (strings.Join [a; b; c] "/") with (a +:+ "/" +:+ (b +:+ "/" +:+ c)).
  rewrite walk_slash by done. by rewrite Split_app_slash, fold_left_app.
Qed.

Lemma walk_Join_1 wd a : a ≠ "" → walk wd (filepath.Join [a]) = walk wd a.
Proof. intros Ha. rewrite Join_cons by done. apply walk_Clean. Qed.

(** [Write] and [Read] name the same file: joining in two steps or in one
    denotes the same path. *)
Lemma resolve_Join_nested wd d c x :
  c ≠ "" →
  resolve wd (filepath.Join [filepath.Join [d; c]; x])
  = resolve wd (filepath.Join [d; c; x]).
Proof.
  intros Hc. unfold resolve. f_equal.
  destruct (decide (d = "")) as [->|Hd].
  - change (filepath.Join [""; c]) with (filepath.Join [c]).
    change (filepath.Join [""; c; x]) with (filepath.Join [c; x]).
    rewrite !walk_Join_2 by (done || by apply Join_nonempty).
    by rewrite walk_Join_1.
  - rewrite walk_Join_3 by done.
    rewrite !walk_Join_2 by (done || by apply Join_nonempty). done.
Qed.

(** ** Lemmas: the file system *)

Lemma WriteFile_ok name data fs fs' :
  ioutil.WriteFile name data fs = (Ok tt, fs') →
  cwd fs' = cwd fs ∧ node_at fs' (resolve (cwd fs) name) = Some (File data).
Proof.
  unfold ioutil.WriteFile. case_bool_decide; [done|].
  destruct (resolve (cwd fs) name) as [|x p] eqn:Hp; [done|].
  destruct (node_at fs (parent (x :: p))) as [[|]|]; [done| |done].
  destruct (node_at fs (x :: p)) as [[|]|]; intros ?; simplify_eq; (split; [done|]);
    simpl; by rewrite lookup_insert_eq.
Qed.

Lemma Rename_file_cases old new data fs :
  let po := resolve (cwd fs) old in
  let pn := resolve (cwd fs) new in
  node_at fs po = Some (File data) →
  (∃ e, os.Rename old new fs = (Err e, fs))
  ∨ (pn ≠ [] ∧ node_at fs pn ≠ Some Dir
     ∧ os.Rename old new fs
       = (Ok tt, set_nodes fs (<[pn := File data]> (delete po (nodes fs))))).
Proof.
  intros po pn Hold. unfold os.Rename. fold po pn.
  destruct (_ || _); [left; by eexists|]. rewrite Hold.
  assert (pn = [] → node_at fs pn = Some Dir) as Hroot by (by intros ->).
  destruct (node_at fs pn) as [[d|]|] eqn:Hnew.
  - destruct (node_at fs (parent pn)) as [[|]|]; [left; by eexists| |left; by eexists].
    right. split; [by intros ?%Hroot|done].
  - left. destruct (decide (pn = po)) as [Heq|Hne]; [rewrite Heq in Hnew; congruence|].
    rewrite (bool_decide_eq_false_2 (pn = po)) by done. rewrite orb_true_r. by eexists.
  - destruct (node_at fs (parent pn)) as [[|]|]; [left; by eexists| |left; by eexists].
    right. split; [by intros ?%Hroot|done].
Qed.

Lemma Rename_file_ok old new data fs fs' :
  os.Rename old new fs = (Ok tt, fs') →
  node_at fs (resolve (cwd fs) old) = Some (File data) →
  cwd fs' = cwd fs ∧ node_at fs' (resolve (cwd fs) new) = Some (File data).
Proof.
  intros H Hold.
  destruct (Rename_file_cases old new data fs Hold) as [[e He]|(Hn & _ & Hok)];
    [congruence|]. rewrite Hok in H. injection H as <-. split; [done|].
  destruct (resolve (cwd fs) new); [done|]. simpl. by rewrite lookup_insert_eq.
Qed.

Lemma Stat_node name fs n :
  name ≠ "" → node_at fs (resolve (cwd fs) name) = Some n →
  os.Stat name fs = Ok (mkFileInfo (filepath.Base name) (is_dir n)).
Proof. intros Hn Hp. unfold os.Stat. by rewrite bool_decide_eq_false_2, Hp. Qed.

Lemma stat_node name fs n :
  name ≠ "" → node_at fs (resolve (cwd fs) name) = Some n →
  stat name fs = Ok (mkFileInfo (filepath.Base name) (is_dir n)).
Proof. intros Hn Hp. unfold stat. by rewrite (Stat_node _ _ n). Qed.

Lemma ReadFile_file name fs data :
  name ≠ "" → node_at fs (resolve (cwd fs) name) = Some (File data) →
  ioutil.ReadFile name fs = Ok data.
Proof. intros Hn Hp. unfold ioutil.ReadFile. by rewrite bool_decide_eq_false_2, Hp. Qed.

Lemma Stat_ok_inv name fs fi :
  os.Stat name fs = Ok fi →
  name ≠ "" ∧ ∃ n, node_at fs (resolve (cwd fs) name) = Some n ∧ IsDir fi = is_dir n.
Proof.
  unfold os.Stat. case_bool_decide; [done|].
  destruct (node_at fs _) as [n|]; [|done]. intros [= <-]. split; [done|]. by exists n.
Qed.

Lemma Stat_err_inv name fs e :
  os.Stat name fs = Err e → name ≠ "" → node_at fs (resolve (cwd fs) name) = None.
Proof.
  unfold os.Stat. intros H Hn. rewrite bool_decide_eq_false_2 in H by done.
  by destruct (node_at fs _).
Qed.

Lemma Lstat_ok_inv name fs fi : os.Lstat name fs = Ok fi → os.Stat name fs = Ok fi.
Proof. unfold os.Lstat. by destruct (os.Stat name fs) as [|[]]. Qed.

Lemma Lstat_node name fs n :
  name ≠ "" → node_at fs (resolve (cwd fs) name) = Some n →
  os.Lstat name fs = Ok (mkFileInfo (filepath.Base name) (is_dir n)).
Proof. intros Hn Hp. unfold os.Lstat. by rewrite (Stat_node _ _ n). Qed.

Lemma Lstat_None name fs :
  node_at fs (resolve (cwd fs) name) = None → ∃ e, os.Lstat name fs = Err e.
Proof.
  intros Hp. unfold os.Lstat, os.Stat. case_bool_decide; [by eexists|].
  rewrite Hp. by eexists.
Qed.

Lemma grows_refl fs : grows fs fs.
Proof. repeat split; [done|]. intros q n ?. by left. Qed.

Lemma grows_node_at fs fs' q n :
  grows fs fs' → node_at fs q = Some n → node_at fs' q = Some n.
Proof.
  intros (_ & Hsub & _). destruct q; [done|]. simpl. intros H.
  by eapply lookup_weaken.
Qed.

Lemma grows_trans fs1 fs2 fs3 : grows fs1 fs2 → grows fs2 fs3 → grows fs1 fs3.
Proof.
  intros (Hc1 & Hs1 & Hn1) H23. pose proof H23 as (Hc2 & Hs2 & Hn2).
  split; [congruence|]. split; [by etrans|].
  intros q n Hq. destruct (Hn2 q n Hq) as [H2|(H2 & Hq0 & -> & Hp)].
  - destruct (Hn1 q n H2) as [?|(? & ? & -> & Hp)]; [by left|right].
    repeat split; try done. by apply (grows_node_at fs2).
  - right. repeat split; try done.
    destruct (nodes fs1 !! q) eqn:H1; [|done].
    apply (lookup_weaken _ _ _ _ H1) in Hs1. congruence.
Qed.

Lemma grows_insert fs p :
  node_at fs p = None → node_at fs (parent p) = Some Dir →
  grows fs (set_nodes fs (<[p := Dir]> (nodes fs))).
Proof.
  intros Hp Hpar. assert (p ≠ []) as Hp0 by (by intros ->).
  assert (nodes fs !! p = None) as Hl by (by destruct p).
  split; [done|]. split; [by apply insert_subseteq|].
  intros q n. cbn [set_nodes nodes]. destruct (decide (p = q)) as [<-|Hne].
  - rewrite lookup_insert_eq. intros [= <-]. right. repeat split; try done.
    destruct (parent p) as [|y l] eqn:Hq; [done|]. cbn [node_at set_nodes nodes] in *.
    rewrite lookup_insert_ne; [done|]. intros Heq. congruence.
  - rewrite lookup_insert_ne by done. by left.
Qed.

Lemma Mkdir_cases name fs :
  let p := resolve (cwd fs) name in
  (∃ e, os.Mkdir name fs = (Err e, fs)
        ∧ (name = "" ∨ is_Some (node_at fs p) ∨ node_at fs (parent p) ≠ Some Dir))
  ∨ (name ≠ "" ∧ node_at fs p = None ∧ node_at fs (parent p) = Some Dir
     ∧ os.Mkdir name fs = (Ok tt, set_nodes fs (<[p := Dir]> (nodes fs)))).
Proof.
  intros p. unfold os.Mkdir. fold p.
  case_bool_decide; [left; eexists; split; [done|by left]|].
  destruct (node_at fs p) as [n|] eqn:Hp.
  - left. eexists. split; [done|]. right. left. by eexists.
  - destruct (node_at fs (parent p)) as [[|]|] eqn:Hpar.
    + left. eexists. split; [done|]. by right; right.
    + by right.
    + left. eexists. split; [done|]. by right; right.
Qed.

(** One call of [os.MkdirAll], unfolded. *)
Lemma mkdirAll_eq name ps fs :
  os.mkdirAll name ps fs
  = match os.Stat name fs with
    | Ok dir =>
        if IsDir dir then (Ok tt, fs) else (Err (PathError "mkdir" name ENOTDIR), fs)
    | Err _ =>
        let '(made, fs1) :=
          match ps with
          | [] => (Ok tt, fs)
          | parent :: ps' => os.mkdirAll parent ps' fs
          end in
        match made with
        | Err e => (Err e, fs1)
        | Ok _ =>
            match os.Mkdir name fs1 with
            | (Err e, fs2) =>
                match os.Lstat name fs2 with
                | Ok dir => if IsDir dir then (Ok tt, fs2) else (Err e, fs2)
                | Err _ => (Err e, fs2)
                end
            | made => made
            end
        end
    end.
Proof. by destruct ps. Qed.

(** What [os.MkdirAll] does once the parent is there. *)
Lemma Mkdir_Lstat name fs :
  let p := resolve (cwd fs) name in
  let out := match os.Mkdir name fs with
             | (Err e, fs2) =>
                 match os.Lstat name fs2 with
                 | Ok dir => if IsDir dir then (Ok tt, fs2) else (Err e, fs2)
                 | Err _ => (Err e, fs2)
                 end
             | made => made
             end in
  grows fs out.2
  ∧ (out.1 = Ok tt → node_at out.2 p = Some Dir)
  ∧ ∀ e, out.1 = Err e →
      out.2 = fs
      ∧ (name = "" ∨ (∃ data, node_at fs p = Some (File data))
         ∨ (node_at fs p = None ∧ node_at fs (parent p) ≠ Some Dir)).
Proof.
  intros p. destruct (Mkdir_cases name fs) as [(e & -> & Hwhy)|(Hn & Hp & Hpar & ->)];
    fold p in Hwhy || fold p in Hp, Hpar; cbv zeta.
  - destruct (os.Lstat name fs) as [fi|e'] eqn:HL.
    + apply Lstat_ok_inv, Stat_ok_inv in HL as (Hn & n & Hp & Hd). fold p in Hp.
      destruct n; simpl in Hd; rewrite Hd; cbn [fst snd].
      * split; [apply grows_refl|]. split; [done|]. intros e' _. split; [done|].
        right. left. by eexists.
      * split; [apply grows_refl|]. split; [done|]. by intros e' [=].
    + cbn [fst snd]. split; [apply grows_refl|]. split; [done|]. intros e'' _.
      split; [done|]. destruct Hwhy as [?|[[n Hp]|?]]; [by left| |].
      * destruct (decide (name = "")) as [?|Hn]; [by left|].
        by rewrite (Lstat_node _ _ n) in HL.
      * destruct (node_at fs p) as [n|] eqn:Hp; [|by right; right].
        destruct (decide (name = "")) as [?|Hn]; [by left|].
        by rewrite (Lstat_node _ _ n) in HL.
  - cbn [fst snd]. split; [by apply grows_insert|]. split; [|done]. intros _.
    subst p. destruct (resolve (cwd fs) name) as [|y l]; [done|].
    cbn [node_at set_nodes nodes]. by rewrite lookup_insert_eq.
Qed.

(** [os.MkdirAll] makes directories and nothing else, and when it returns no
    error a directory is at the name. *)
Lemma mkdirAll_grows ps : ∀ name fs,
  grows fs (os.mkdirAll name ps fs).2
  ∧ ((os.mkdirAll name ps fs).1 = Ok tt →
     node_at (os.mkdirAll name ps fs).2 (resolve (cwd fs) name) = Some Dir).
Proof.
  induction ps as [|parent ps IH]; intros name fs; rewrite mkdirAll_eq;
    (destruct (os.Stat name fs) as [fi|e0] eqn:HS;
     [apply Stat_ok_inv in HS as (Hn & n & Hp & Hd);
      destruct n; simpl in Hd; rewrite Hd; cbn [fst snd];
      (split; [apply grows_refl|done])|]).
  - destruct (Mkdir_Lstat name fs) as (Hg & Hok & _). by split.
  - destruct (IH parent fs) as [Hg1 _].
    destruct (os.mkdirAll parent ps fs) as [[[]|e1] fs1]; cbn [fst snd] in *; [|done].
    destruct (Mkdir_Lstat name fs1) as (Hg & Hok & _).
    split; [by eapply grows_trans|].
    destruct Hg1 as (Hcwd & _). by rewrite <- Hcwd.
Qed.

Lemma MkdirAll_cwd name fs : cwd (os.MkdirAll name fs).2 = cwd fs.
Proof. unfold os.MkdirAll. by destruct (mkdirAll_grows (os.parents (rev (strings.Split name))) name fs) as [(? & _) _]. Qed.

Lemma getOrCreateMutex_ok c w :
  ∃ m, (getOrCreateMutex c w).1 = Ok m.
Proof. unfold getOrCreateMutex. destruct (_ !! c); by eexists. Qed.

Lemma getOrCreateMutex_disk c w : disk (getOrCreateMutex c w).2 = disk w.
Proof. unfold getOrCreateMutex. by destruct (_ !! c). Qed.

Lemma getOrCreateMutex_dir c w : dir (driver (getOrCreateMutex c w).2) = dir (driver w).
Proof. unfold getOrCreateMutex. by destruct (_ !! c). Qed.

Lemma bind_getOrCreateMutex {A} c (k : Mutex → Go A) w :
  ∃ m, bind (getOrCreateMutex c) k w = k m (getOrCreateMutex c w).2.
Proof.
  destruct (getOrCreateMutex_ok c w) as [m Hm]. exists m.
  unfold bind. by destruct (getOrCreateMutex c w) as [[?|?] ?]; simplify_eq/=.
Qed.

Section WriteSteps.

Context {value : Type} `{!json.Codec value}.

(** [Write] with non-empty arguments, step by step. *)
Lemma Write_eq c r (v : value) w :
  c ≠ "" → r ≠ "" →
  let w0 := (getOrCreateMutex c w).2 in
  let dir := filepath.Join [dir (driver w); c] in
  let fnlPath := filepath.Join [dir; r +:+ ".json"] in
  let tmpPath := fnlPath +:+ ".tmp" in
  Write c r v w =
    match os.MkdirAll dir (disk w) with
    | (Err e, fs1) => (Err e, with_disk w0 fs1)
    | (Ok _, fs1) =>
        match json.MarshalIndent v "" tab with
        | Err e => (Err e, with_disk w0 fs1)
        | Ok b =>
            match ioutil.WriteFile tmpPath (b +:+ newline) fs1 with
            | (Err e, fs2) => (Err e, with_disk w0 fs2)
            | (Ok _, fs2) =>
                ((os.Rename tmpPath fnlPath fs2).1,
                 with_disk w0 (os.Rename tmpPath fnlPath fs2).2)
            end
        end
    end.
Proof.
  intros Hc Hr. cbv zeta. unfold Write.
  rewrite !bool_decide_eq_false_2 by done.
  lazymatch goal with
  | |- bind (getOrCreateMutex c) ?k w = _ =>
      destruct (bind_getOrCreateMutex c k w) as [m ->]
  end.
  cbv zeta. rewrite getOrCreateMutex_dir.
  unfold bind, on_disk. rewrite getOrCreateMutex_disk.
  destruct (os.MkdirAll _ (disk w)) as [[[]|e] fs1]; [|done].
  cbn [disk driver heap with_disk].
  destruct (json.MarshalIndent v _ _) as [b|e]; [|done].
  destruct (ioutil.WriteFile _ _ fs1) as [[[]|e] fs2]; [|done].
  cbn [disk driver heap with_disk].
  by destruct (os.Rename _ _ fs2).
Qed.

End WriteSteps.

Section RoundTrip.

Context {value : Type} `{!json.Codec value}.

(** What a successful [Write] leaves: the encoded value and a newline, in
    the file [Read] opens. *)
Lemma Write_ok_file c r (v : value) w w' :
  Write c r v w = (Ok tt, w') →
  c ≠ "" ∧ r ≠ "" ∧ dir (driver w') = dir (driver w) ∧
  ∃ b, json.MarshalIndent v "" tab = Ok b ∧
    node_at (disk w')
      (resolve (cwd (disk w'))
         (filepath.Join [dir (driver w); c; r +:+ ".json"]))
    = Some (File (b +:+ newline)).
Proof.
  intros Hw.
  assert (c ≠ "") as Hc.
  { intros ->. by unfold Write in Hw. }
  assert (r ≠ "") as Hr.
  { intros ->. unfold Write in Hw. by rewrite bool_decide_eq_false_2 in Hw. }
  rewrite Write_eq in Hw by done.
  destruct (os.MkdirAll _ (disk w)) as [[[]|e] fs1] eqn:Hmk; [|done].
  destruct (json.MarshalIndent v _ _) as [b|e]; [|done].
  destruct (ioutil.WriteFile _ _ fs1) as [[[]|e] fs2] eqn:Hwf; [|done].
  destruct (os.Rename _ _ fs2) as [res fs3] eqn:Hrn.
  cbn [fst snd] in Hw. injection Hw as -> <-.
  cbn [with_disk disk driver]. rewrite getOrCreateMutex_dir.
  repeat split; [done..|]. exists b; split; [done|].
  apply WriteFile_ok in Hwf as [Hcwd2 Hf2].
  eapply Rename_file_ok in Hrn as [Hcwd3 Hf3]; [|by rewrite Hcwd2].
  rewrite Hcwd3, <- resolve_Join_nested by done. exact Hf3.
Qed.

Lemma Join_3_nonempty d c x : c ≠ "" → filepath.Join [d; c; x] ≠ "".
Proof.
  intros Hc. destruct (decide (d = "")) as [->|Hd]; [|by apply Join_nonempty].
  change (filepath.Join [""; c; x]) with (filepath.Join [c; x]).
  by apply Join_nonempty.
Qed.


End RoundTrip.

(** [os.MkdirAll] only adds directories: nothing is removed or replaced and
    no regular file appears. *)
Lemma MkdirAll_adds_dirs name fs :
  nodes fs ⊆ nodes (os.MkdirAll name fs).2
  ∧ ∀ p data, nodes (os.MkdirAll name fs).2 !! p = Some (File data) →
              nodes fs !! p = Some (File data).
Proof.
  unfold os.MkdirAll.
  destruct (mkdirAll_grows (os.parents (rev (strings.Split name))) name fs)
    as [(_ & Hsub & Hnew) _].
  split; [done|]. intros p data Hp. by destruct (Hnew p _ Hp) as [?|(_ & _ & ? & _)].
Qed.

Section WriteErrors.

Context {value : Type} `{!json.Codec value}.

(** C6. [Write] with an empty collection or an empty resource fails with
    the message naming the missing argument and changes nothing; with both
    non-empty, a value that encodes, and every file-system call succeeding
    ([os.MkdirAll], [ioutil.WriteFile], [os.Rename]), it returns no error. *)
Theorem write_preconditions (v : value) w :
  (∀ r, Write "" r v w
        = (Err (Errorf "Missing collection - no place to save record!"), w))
  ∧ (∀ c, c ≠ "" →
       Write c "" v w
       = (Err (Errorf "Missing resource - unable to save record (no name)!"), w))
  ∧ (∀ c r b fs1 fs2 fs3,
       c ≠ "" → r ≠ "" →
       json.MarshalIndent v "" tab = Ok b →
       let dir := filepath.Join [dir (driver w); c] in
       let fnlPath := filepath.Join [dir; r +:+ ".json"] in
       let tmpPath := fnlPath +:+ ".tmp" in
       os.MkdirAll dir (disk w) = (Ok tt, fs1) →
       ioutil.WriteFile tmpPath (b +:+ newline) fs1 = (Ok tt, fs2) →
       os.Rename tmpPath fnlPath fs2 = (Ok tt, fs3) →
       (Write c r v w).1 = Ok tt ∧ disk (Write c r v w).2 = fs3).
Proof.
  split; [done|]. split.
  { intros c Hc. unfold Write. by rewrite bool_decide_eq_false_2. }
  intros c r b fs1 fs2 fs3 Hc Hr Hm d fnl tmp Hmk Hwf Hrn.
  rewrite Write_eq by done. fold d fnl tmp.
  by rewrite Hmk, Hm, Hwf, Hrn.
Qed.

(** C2, as the code has it. For non-empty collection and resource and a
    value that cannot be encoded, [Write] returns an error and leaves the
    file system as [os.MkdirAll] of the collection directory left it: no
    file is created, replaced or removed, only directories may be new. *)
Theorem write_unserializable c r (v : value) e w :
  c ≠ "" → r ≠ "" →
  json.MarshalIndent v "" tab = Err e →
  (∃ e', (Write c r v w).1 = Err e')
  ∧ disk (Write c r v w).2
    = (os.MkdirAll (filepath.Join [dir (driver w); c]) (disk w)).2
  ∧ nodes (disk w) ⊆ nodes (disk (Write c r v w).2)
  ∧ ∀ p data, nodes (disk (Write c r v w).2) !! p = Some (File data) →
              nodes (disk w) !! p = Some (File data).
Proof.
  intros Hc Hr Hm.
  assert (disk (Write c r v w).2
          = (os.MkdirAll (filepath.Join [dir (driver w); c]) (disk w)).2
          ∧ ∃ e', (Write c r v w).1 = Err e') as [Hdisk He].
  { rewrite Write_eq by done.
    destruct (os.MkdirAll _ (disk w)) as [[[]|e'] fs1]; [rewrite Hm|];
      (split; [done|by eexists]). }
  split; [done|]. split; [done|]. rewrite Hdisk. apply MkdirAll_adds_dirs.
Qed.

End WriteErrors.

(** ** Lemmas: removing *)

Lemma RemoveAll_removable name fs :
  removable (cwd fs) name →
  os.RemoveAll name fs
  = (Ok tt, set_nodes fs
              (filter (λ kv, ¬ resolve (cwd fs) name `prefix_of` kv.1) (nodes fs))).
Proof.
  intros (Hn & Hd & Hdd & Hp). unfold os.RemoveAll.
  by rewrite !bool_decide_eq_false_2, Hd, Hdd.
Qed.

(** After [os.RemoveAll] of a removable name nothing is left at or below the
    path, and every other path is as before. *)
Lemma RemoveAll_spec name fs :
  removable (cwd fs) name →
  (os.RemoveAll name fs).1 = Ok tt
  ∧ cwd (os.RemoveAll name fs).2 = cwd fs
  ∧ (∀ q, resolve (cwd fs) name `prefix_of` q →
          node_at (os.RemoveAll name fs).2 q = None)
  ∧ (∀ q, ¬ resolve (cwd fs) name `prefix_of` q →
          node_at (os.RemoveAll name fs).2 q = node_at fs q).
Proof.
  intros Hr. rewrite RemoveAll_removable by done.
  destruct Hr as (_ & _ & _ & Hp). cbn [fst snd]. repeat split.
  - intros q Hq. destruct q as [|x q].
    { apply prefix_nil_inv in Hq. done. }
    cbn [node_at set_nodes nodes]. apply map_lookup_filter_None_2.
    right. intros n _ Hn. by apply Hn.
  - intros q Hq. destruct q as [|x q]; [done|].
    cbn [node_at set_nodes nodes]. rewrite map_lookup_filter.
    destruct (nodes fs !! (x :: q)); [|done]. simpl.
    by rewrite option_guard_True.
Qed.

Lemma Split_app_last a b :
  plain b →
  ∃ init l, strings.Split a = init ++ [l] ∧ strings.Split (a +:+ b) = init ++ [l +:+ b].
Proof.
  intros Hb. induction a as [|c a (init & l & Ha & Hab)].
  - exists [], "". by split.
  - change (String c a +:+ b) with (String c (a +:+ b)). simpl.
    destruct (Ascii.eqb c slash).
    + exists ("" :: init), l. rewrite Ha, Hab. by split.
    + rewrite Ha, Hab. destruct init as [|y init].
      * exists [], (String c l). by split.
      * exists (String c y :: init), l. by split.
Qed.

Lemma json_suffix_name l :
  l +:+ ".json" ≠ "" ∧ l +:+ ".json" ≠ "." ∧ l +:+ ".json" ≠ "..".
Proof.
  destruct l as [|c1 [|c2 [|c3 l]]]; repeat split; intros [=].
Qed.

(** A name with [.json] added is always removable. *)
Lemma removable_json wd name : removable wd (name +:+ ".json").
Proof.
  destruct (Split_app_last name ".json") as (init & l & Hn & Hj); [done|].
  destruct (json_suffix_name l) as (H1 & H2 & H3).
  repeat split.
  - by destruct name.
  - unfold endsWithDot. rewrite Hj, last_snoc. apply bool_decide_eq_false_2. congruence.
  - unfold endsWithDotDot. rewrite Hj, last_snoc. apply bool_decide_eq_false_2. congruence.
  - unfold resolve, walk. rewrite Hj, fold_left_app. cbn [fold_left].
    unfold walk_step at 1. rewrite !bool_decide_eq_false_2 by done. simpl.
    by destruct (rev _).
Qed.

Lemma Stat_None name fs :
  node_at fs (resolve (cwd fs) name) = None →
  ∃ e, os.Stat name fs = Err (PathError "stat" name e).
Proof.
  intros Hp. unfold os.Stat. case_bool_decide; [by eexists|].
  rewrite Hp. by eexists.
Qed.

Lemma Stat_empty fs : os.Stat "" fs = Err (PathError "stat" "" ENOENT).
Proof. done. Qed.

Lemma stat_None name fs :
  (name ≠ "" → node_at fs (resolve (cwd fs) name) = None) →
  node_at fs (resolve (cwd fs) (name +:+ ".json")) = None →
  ∃ e, stat name fs = Err e.
Proof.
  intros Hp Hj. unfold stat.
  destruct (Stat_None _ _ Hj) as [ej Hej].
  destruct (decide (name = "")) as [->|Hn].
  - rewrite Stat_empty. simpl. by eexists.
  - destruct (Stat_None _ _ (Hp Hn)) as [e ->]. simpl.
    destruct e; by eexists.
Qed.

Lemma Delete_eq c r w :
  let w0 := (getOrCreateMutex c w).2 in
  let path := filepath.Join [c; r] in
  let base := filepath.Join [dir (driver w); path] in
  Delete c r w =
    match stat base (disk w) with
    | Err _ =>
        (Err (Errorf ("unable to find file or directory named " +:+ path +:+ newline)), w0)
    | Ok fi =>
        if IsDir fi then
          ((os.RemoveAll base (disk w)).1, with_disk w0 (os.RemoveAll base (disk w)).2)
        else
          ((os.RemoveAll (base +:+ ".json") (disk w)).1,
           with_disk w0 (os.RemoveAll (base +:+ ".json") (disk w)).2)
    end.
Proof.
  cbv zeta. unfold Delete.
  lazymatch goal with
  | |- bind (getOrCreateMutex c) ?k w = _ =>
      destruct (bind_getOrCreateMutex c k w) as [m ->]
  end.
  cbv zeta. rewrite getOrCreateMutex_dir, getOrCreateMutex_disk.
  destruct (stat _ (disk w)) as [fi|e]; [|done].
  unfold IsRegular, on_disk. rewrite getOrCreateMutex_disk.
  destruct (IsDir fi); cbn [negb]; by destruct (os.RemoveAll _ _).
Qed.

Lemma Clean_entry_name c : entry_name c → filepath.Clean c = c.
Proof.
  intros [(H1 & H2 & Hp) H3]. unfold filepath.Clean.
  rewrite (plain_not_abs c Hp), Hp. simpl. unfold filepath.clean_step.
  by rewrite !bool_decide_eq_false_2.
Qed.

Lemma Clean_slash a : a ≠ "" → filepath.Clean (a +:+ "/" +:+ "") = filepath.Clean a.
Proof.
  intros Ha. unfold filepath.Clean.
  by rewrite IsAbs_app, Split_app_slash, fold_left_app.
Qed.

Lemma Join_slash a : a ≠ "" → filepath.Join [a; ""] = filepath.Clean a.
Proof. intros Ha. rewrite Join_cons by done. by apply Clean_slash. Qed.

Lemma resolve_Clean wd s : resolve wd (filepath.Clean s) = resolve wd s.
Proof. unfold resolve. by rewrite walk_Clean. Qed.

(** C3, as the code has it. [Delete c r] probes [base], the root joined with
    [Join(c, r)], as it is and, when that does not exist, with [.json]
    added.  Nothing at either path: the not-found error naming [Join(c, r)],
    and no change.  [base] itself a directory (and a name [os.RemoveAll]
    accepts): it is removed with everything under it, and for a collection
    [c] and the empty resource [base] is the collection directory.  A
    regular file found at [base], or at [base.json] when [base] does not
    exist: everything at [base.json] is removed. *)
Theorem delete_resolution c r w :
  let path := filepath.Join [c; r] in
  let base := filepath.Join [dir (driver w); path] in
  let fs := disk w in
  let p := resolve (cwd fs) base in
  let pj := resolve (cwd fs) (base +:+ ".json") in
  let res := Delete c r w in
  ((base ≠ "" → node_at fs p = None) → node_at fs pj = None →
     res.1 = Err (Errorf ("unable to find file or directory named "
                            +:+ path +:+ newline))
     ∧ disk res.2 = fs)
  ∧ (node_at fs p = Some Dir → removable (cwd fs) base →
     res.1 = Ok tt
     ∧ (∀ q, p `prefix_of` q → node_at (disk res.2) q = None)
     ∧ (∀ q, ¬ p `prefix_of` q → node_at (disk res.2) q = node_at fs q))
  ∧ (entry_name c → r = "" → base = filepath.Join [dir (driver w); c])
  ∧ ((base ≠ "" ∧ ∃ data, node_at fs p = Some (File data))
     ∨ (os.IsNotExist (os.Stat base fs) = true
        ∧ ∃ data, node_at fs pj = Some (File data)) →
     res.1 = Ok tt
     ∧ (∀ q, pj `prefix_of` q → node_at (disk res.2) q = None)
     ∧ (∀ q, ¬ pj `prefix_of` q → node_at (disk res.2) q = node_at fs q)).
Proof.
  intros path base fs p pj res. subst res. rewrite Delete_eq. fold path base fs.
  split; [|split; [|split]].
  - intros Hp Hj. destruct (stat_None base fs Hp Hj) as [e ->].
    split; [done|]. cbn [snd]. apply getOrCreateMutex_disk.
  - intros Hp Hr. pose proof Hr as (Hb & _).
    rewrite (stat_node base fs Dir) by done. cbn [IsDir is_dir].
    destruct (RemoveAll_spec base fs Hr) as (Hok & _ & Hgone & Hrest).
    by repeat split.
  - intros Hc ->. subst base path. destruct Hc as [(Hc & ?) ?].
    rewrite Join_slash by done. by rewrite Clean_entry_name.
  - intros Hfound.
    destruct (RemoveAll_spec (base +:+ ".json") fs (removable_json _ _))
      as (Hok & _ & Hgone & Hrest).
    assert (∃ fi, stat base fs = Ok fi ∧ IsDir fi = false) as (fi & -> & ->);
      [|by repeat split].
    destruct Hfound as [[Hb [data Hp]]|[Hne [data Hj]]].
    + rewrite (stat_node base fs (File data)) by done. by eexists.
    + unfold stat. fold fs. rewrite Hne.
      rewrite (Stat_node _ fs (File data));
        [by eexists|apply (removable_json (cwd fs) base)|done].
Qed.

Section EmptyNames.

Context {value : Type} `{!json.Codec value}.

(** C5, as the code has it. [Write], [Read] and [ReadAll] refuse an empty
    collection; [Delete] does not look at its arguments.  [Delete "" ""]
    probes the root directory of the store itself: when that is a
    directory with a name [os.RemoveAll] accepts, the root and everything
    under it is removed; when the cleaned root name ends in [.] (as for the
    root ["./"]), [os.RemoveAll] refuses it and [Delete] returns that error
    and removes nothing. *)
Theorem delete_empty_names (v : value) w :
  let root := filepath.Clean (dir (driver w)) in
  let fs := disk w in
  let p := resolve (cwd fs) (dir (driver w)) in
  let res := Delete "" "" w in
  (∀ r, Write "" r v w
        = (Err (Errorf "Missing collection - no place to save record!"), w))
  ∧ (∀ r, Read "" r v w = (Err (Errorf "Missing collection - unable to read!"), w))
  ∧ ReadAll "" w = (Err (Errorf "Missing collection - unable to read"), w)
  ∧ (dir (driver w) ≠ "" → node_at fs p = Some Dir → removable (cwd fs) root →
     res.1 = Ok tt
     ∧ (∀ q, p `prefix_of` q → node_at (disk res.2) q = None)
     ∧ (∀ q, ¬ p `prefix_of` q → node_at (disk res.2) q = node_at fs q))
  ∧ (dir (driver w) ≠ "" → node_at fs p = Some Dir → endsWithDot root = true →
     res.1 = Err (PathError "RemoveAll" root EINVAL) ∧ disk res.2 = fs).
Proof.
  intros root fs p res. do 3 (split; [done|]).
  assert (dir (driver w) ≠ "" → node_at fs p = Some Dir →
          res = ((os.RemoveAll root fs).1,
                 with_disk (getOrCreateMutex "" w).2 (os.RemoveAll root fs).2))
    as Hres.
  { intros Hd Hp. subst res. rewrite Delete_eq.
    change (filepath.Join [""; ""]) with "". rewrite Join_slash by done.
    fold root fs. rewrite (stat_node root fs Dir); [done|apply Clean_nonempty|].
    subst root. by rewrite resolve_Clean. }
  split.
  - intros Hd Hp Hr. rewrite (Hres Hd Hp). cbn [fst snd with_disk disk].
    destruct (RemoveAll_spec root fs Hr) as (Hok & _ & Hgone & Hrest).
    subst root. rewrite resolve_Clean in Hgone, Hrest. by repeat split.
  - intros Hd Hp Hdot. rewrite (Hres Hd Hp). cbn [fst snd with_disk disk].
    unfold os.RemoveAll. rewrite Hdot.
    by rewrite bool_decide_eq_false_2 by apply Clean_nonempty.
Qed.

(** C9. The registry holds one lock per collection name for good:
    [getOrCreateMutex c] returns a lock and records it under [c]; after any
    run of calls a second [getOrCreateMutex c] returns that same lock and
    changes nothing; and no call removes or replaces an entry: the registry
    before a call, or a run of calls, is included in the registry after. *)
Theorem registry_one_lock_per_collection (cs : list (call value)) c w :
  let w1 := (getOrCreateMutex c w).2 in
  let w2 := run_calls cs w1 in
  (∃ m, (getOrCreateMutex c w).1 = Ok m
        ∧ mutexes (driver w1) !! c = Some m
        ∧ getOrCreateMutex c w2 = (Ok m, w2))
  ∧ mutexes (driver w) ⊆ mutexes (driver w1)
  ∧ mutexes (driver w1) ⊆ mutexes (driver w2).
Proof.
  intros w1 w2.
  pose proof (monotone_getOrCreateMutex c w) as [H1 _].
  pose proof (extends_run_calls cs w1) as [H2 _].
  assert (∀ c' m' w', mutexes (driver w') !! c' = Some m' →
                      getOrCreateMutex c' w' = (Ok m', w')) as Hsame.
  { intros c' m' w' Hc. unfold getOrCreateMutex. by rewrite Hc. }
  split; [|done].
  assert (∃ m, (getOrCreateMutex c w).1 = Ok m ∧ mutexes (driver w1) !! c = Some m)
    as (m & Hm & Hc).
  { subst w1 w2. unfold getOrCreateMutex.
    destruct (mutexes (driver w) !! c) as [m|] eqn:Hc; cbn [fst snd driver mutexes].
    - by exists m.
    - exists (heap w). by rewrite lookup_insert_eq. }
  exists m. repeat split; [done..|]. apply Hsame.
  by apply (lookup_weaken _ _ _ _ Hc).
Qed.

End EmptyNames.

(** ** Lemmas: listing and reading a directory *)

Lemma child_name_Some p q x : child_name p q = Some x ↔ q = p ++ [x].
Proof.
  unfold child_name. split.
  - destruct (rev q) as [|y q'] eqn:Hq; [done|].
    case_bool_decide as Hp; [|done]. intros [= ->].
    rewrite <- (rev_involutive q), Hq. simpl. by rewrite Hp.
  - intros ->. rewrite rev_app_distr. simpl.
    by rewrite bool_decide_eq_true_2 by apply rev_involutive.
Qed.

(** The listing of a directory has exactly the names that exist in it. *)
Lemma elem_of_children fs p x :
  x ∈ children fs p ↔ is_Some (nodes fs !! (p ++ [x])).
Proof.
  unfold children. rewrite merge_sort_Permutation, list_elem_of_omap. split.
  - intros ([q n] & Hin & Hq). apply elem_of_map_to_list in Hin.
    apply child_name_Some in Hq. simpl in Hq. subst q. by exists n.
  - intros [n Hn]. exists (p ++ [x], n). split.
    + by apply elem_of_map_to_list.
    + by apply child_name_Some.
Qed.

Lemma children_entry_names fs p : wf_names fs → Forall entry_name (children fs p).
Proof.
  intros Hwf. apply Forall_forall. intros x [n Hn]%elem_of_children.
  specialize (Hwf _ _ Hn). simpl in Hwf.
  apply Forall_app in Hwf as [_ Hx]. by inversion Hx.
Qed.

Lemma Join_2_nonempty d c : c ≠ "" → filepath.Join [d; c] ≠ "".
Proof.
  intros Hc. destruct (decide (d = "")) as [->|Hd]; [|by apply Join_nonempty].
  change (filepath.Join [""; c]) with (filepath.Join [c]). by apply Join_nonempty.
Qed.

(** Joining an entry name to a directory name denotes the entry. *)
Lemma resolve_Join_entry wd d x :
  d ≠ "" → entry_name x → resolve wd (filepath.Join [d; x]) = resolve wd d ++ [x].
Proof.
  intros Hd [(H1 & H2 & Hp) H3]. unfold resolve.
  rewrite walk_Join_2 by done. rewrite Hp. cbn [fold_left].
  unfold walk_step. by rewrite !bool_decide_eq_false_2.
Qed.

Lemma readRecords_world d files records w : (readRecords d files records w).2 = w.
Proof.
  revert records. induction files as [|file files IH]; intros records; [done|].
  simpl. unfold bind, from_disk. destruct (ioutil.ReadFile _ _); [apply IH|done].
Qed.

Lemma readRecords_ok d files records l w :
  Forall2 (λ file s, ioutil.ReadFile (filepath.Join [d; Name file]) (disk w) = Ok s)
    files l →
  readRecords d files records w = (Ok (records ++ l), w).
Proof.
  intros Hl. revert records.
  induction Hl as [|file s files l Hs _ IH]; intros records.
  - by rewrite app_nil_r.
  - cbn [readRecords]. unfold bind, from_disk. rewrite Hs, IH.
    by rewrite <- app_assoc.
Qed.

Lemma readRecords_err d pre file rest records e w :
  Forall (λ file, is_ok (ioutil.ReadFile (filepath.Join [d; Name file]) (disk w)) = true)
    pre →
  ioutil.ReadFile (filepath.Join [d; Name file]) (disk w) = Err e →
  readRecords d (pre ++ file :: rest) records w = (Err e, w).
Proof.
  intros Hpre He. revert records.
  induction Hpre as [|f pre Hf _ IH]; intros records.
  - cbn [app readRecords]. unfold bind, from_disk. by rewrite He.
  - cbn [app readRecords]. unfold bind, from_disk.
    destruct (ioutil.ReadFile _ _); [apply IH|done].
Qed.

Lemma ReadAll_eq c w :
  c ≠ "" →
  let d := filepath.Join [dir (driver w); c] in
  ReadAll c w =
    match stat d (disk w) with
    | Err e => (Err e, w)
    | Ok _ =>
        readRecords d
          (match ioutil.ReadDir d (disk w) with Ok files => files | Err _ => [] end)
          [] w
    end.
Proof.
  intros Hc. cbv zeta. unfold ReadAll. rewrite bool_decide_eq_false_2 by done.
  unfold bind, from_disk. by destruct (stat _ _).
Qed.

Lemma ReadDir_dir name fs :
  name ≠ "" → node_at fs (resolve (cwd fs) name) = Some Dir →
  ∃ files, ioutil.ReadDir name fs = Ok files
           ∧ map Name files = children fs (resolve (cwd fs) name).
Proof.
  intros Hn Hp. unfold ioutil.ReadDir. rewrite bool_decide_eq_false_2, Hp by done.
  eexists. split; [done|]. rewrite map_map. simpl. apply map_id.
Qed.

(** Every listed entry can be read or not; the first that cannot splits the
    listing. *)
Lemma first_unreadable d fs (files : list FileInfo) :
  Forall (λ file, is_ok (ioutil.ReadFile (filepath.Join [d; Name file]) fs) = true) files
  ∨ ∃ pre file rest e,
      files = pre ++ file :: rest
      ∧ Forall (λ file, is_ok (ioutil.ReadFile (filepath.Join [d; Name file]) fs) = true) pre
      ∧ ioutil.ReadFile (filepath.Join [d; Name file]) fs = Err e.
Proof.
  induction files as [|file files IH]; [by left|].
  destruct (ioutil.ReadFile (filepath.Join [d; Name file]) fs) as [s|e] eqn:Hf.
  - destruct IH as [IH|(pre & f & rest & e & -> & Hpre & He)].
    + left. constructor; [by rewrite Hf|done].
    + right. exists (file :: pre), f, rest, e. repeat split; [|done].
      constructor; [by rewrite Hf|done].
  - right. by exists [], file, files, e.
Qed.

Lemma Forall2_elem_impl {A B} (P Q : A → B → Prop) l k :
  Forall2 P l k → (∀ x y, x ∈ l → P x y → Q x y) → Forall2 Q l k.
Proof.
  induction 1 as [|x y l k Hxy _ IH]; intros HPQ; constructor.
  - apply HPQ; [left|done].
  - apply IH. intros x' y' Hin. apply HPQ. by right.
Qed.

Lemma ReadFile_node name fs :
  name ≠ "" →
  ioutil.ReadFile name fs
  = match node_at fs (resolve (cwd fs) name) with
    | Some (File data) => Ok data
    | Some Dir => Err (PathError "read" name EISDIR)
    | None => Err (PathError "open" name (missing fs (resolve (cwd fs) name)))
    end.
Proof. intros Hn. unfold ioutil.ReadFile. by rewrite bool_decide_eq_false_2. Qed.

(** C7. For a non-empty collection whose directory exists: when every entry
    of the directory is a regular file, [ReadAll] returns the content of
    each, in listing order, and the listing has every name in the directory;
    when reading some entry fails, [ReadAll] returns the error of the first
    read that fails and no list. *)
Theorem readall_all_or_nothing c w :
  let d := filepath.Join [dir (driver w); c] in
  let fs := disk w in
  let p := resolve (cwd fs) d in
  c ≠ "" → wf_names fs → node_at fs p = Some Dir →
  (∀ x, x ∈ children fs p ↔ is_Some (nodes fs !! (p ++ [x])))
  ∧ (∀ l, Forall2 (λ x s, nodes fs !! (p ++ [x]) = Some (File s)) (children fs p) l →
          ReadAll c w = (Ok l, w))
  ∧ (∀ x e0, x ∈ children fs p →
             ioutil.ReadFile (filepath.Join [d; x]) fs = Err e0 →
             ∃ pre y rest e,
               children fs p = pre ++ y :: rest
               ∧ Forall (λ z, is_ok (ioutil.ReadFile (filepath.Join [d; z]) fs) = true) pre
               ∧ ioutil.ReadFile (filepath.Join [d; y]) fs = Err e
               ∧ ReadAll c w = (Err e, w)).
Proof.
  intros d fs p Hc Hwf Hp.
  assert (d ≠ "") as Hd by by apply Join_2_nonempty.
  assert (∀ x, x ∈ children fs p →
               node_at fs (resolve (cwd fs) (filepath.Join [d; x])) = nodes fs !! (p ++ [x])
               ∧ filepath.Join [d; x] ≠ "") as Hent.
  { intros x Hx. split; [|by apply Join_nonempty].
    rewrite resolve_Join_entry; [fold p; by destruct p|done|].
    by apply (proj1 (Forall_forall _ _) (children_entry_names fs p Hwf)). }
  destruct (ReadDir_dir d fs Hd Hp) as (files & Hfiles & Hnames). fold p in Hnames.
  assert (ReadAll c w = readRecords d files [] w) as ->.
  { rewrite ReadAll_eq by done. fold d fs.
    by rewrite (stat_node d fs Dir), Hfiles. }
  split; [apply elem_of_children|]. split.
  - intros l Hl. rewrite (readRecords_ok d files [] l); [done|].
    apply (Forall2_fmap_l Name
             (λ x s, ioutil.ReadFile (filepath.Join [d; x]) (disk w) = Ok s)).
    change (Name <$> files) with (map Name files). rewrite Hnames.
    eapply Forall2_elem_impl; [exact Hl|]. intros x s Hx Hs. cbv beta.
    destruct (Hent x Hx) as [Hnode Hne]. fold fs.
    by rewrite ReadFile_node, Hnode, Hs.
  - intros x e0 Hx Hfail.
    destruct (first_unreadable d fs files)
      as [Hall|(pre & file & rest & e & -> & Hpre & He)].
    + rewrite <- Hnames in Hx. apply list_elem_of_fmap in Hx as (file & -> & Hin).
      apply (proj1 (Forall_forall _ _) Hall) in Hin.
      by rewrite Hfail in Hin.
    + exists (Name <$> pre), (Name file), (Name <$> rest), e.
      split; [by rewrite <- Hnames, map_app|].
      split; [by apply Forall_fmap|]. split; [done|by apply readRecords_err].
Qed.

(** ** The example stores *)


Lemma write_preconditions_witness :
  (Write "users" "john" (VBool true) data_store).1 = Ok tt.
Proof.
  pose (fs1 := (os.MkdirAll "/srv/data/users" (disk data_store)).2).
  pose (fs2 := (ioutil.WriteFile "/srv/data/users/john.json.tmp" ("true" +:+ newline) fs1).2).
  pose (fs3 := (os.Rename "/srv/data/users/john.json.tmp" "/srv/data/users/john.json" fs2).2).
  refine (proj1 (proj2 (proj2 (write_preconditions (VBool true) data_store))
                   "users" "john" "true" fs1 fs2 fs3 _ _ _ _ _ _)).
  - discriminate.
  - discriminate.
  - reflexivity.
  - vm_compute. reflexivity.
  - vm_compute. reflexivity.
  - vm_compute. reflexivity.
Defined.

Lemma write_unserializable_witness :
  ∃ e, (Write "users" "john" VChan local_store).1 = Err e.
Proof.
  refine (proj1 (write_unserializable "users" "john" VChan
                   (JSONError "json: unsupported type: chan int") local_store _ _ _)).
  - discriminate.
  - discriminate.
  - reflexivity.
Defined.

(** C2 as stated fails: the value cannot be encoded, and the call has
    created the collection directory all the same. *)
Lemma write_unserializable_creates_directory :
  json.MarshalIndent VChan "" tab = Err (JSONError "json: unsupported type: chan int")
  ∧ node_at (disk local_store) ["srv"; "app"; "users"] = None
  ∧ node_at (disk (Write "users" "john" VChan local_store).2) ["srv"; "app"; "users"]
    = Some Dir.
Proof. vm_compute. repeat split. Qed.

(** C3 as stated fails: the resource is there, the caller names it with the
    extension, [Delete] returns no error and the resource is still there. *)
Lemma delete_with_extension_keeps_resource :
  node_at (disk data_store_john) ["srv"; "data"; "users"; "john.json"]
  = Some (File ("true" +:+ newline))
  ∧ (Delete "users" "john.json" data_store_john).1 = Ok tt
  ∧ node_at (disk (Delete "users" "john.json" data_store_john).2)
      ["srv"; "data"; "users"; "john.json"]
    = Some (File ("true" +:+ newline)).
Proof. vm_compute. repeat split. Qed.

Lemma delete_resolution_witness :
  (Delete "users" "john" data_store_john).1 = Ok tt
  ∧ node_at (disk (Delete "users" "john" data_store_john).2)
      ["srv"; "data"; "users"; "john.json"] = None.
Proof.
  pose proof (proj2 (proj2 (proj2 (delete_resolution "users" "john" data_store_john))))
    as Hdel.
  cbv zeta in Hdel. destruct Hdel as (Hok & Hgone & _).
  - right. split; [vm_compute; reflexivity|].
    exists ("true" +:+ newline). vm_compute. reflexivity.
  - split; [exact Hok|]. apply Hgone. exists []. vm_compute. reflexivity.
Defined.

(** C5 as stated fails: for the store [main] opens, at ["./"], [Delete "" ""]
    returns the error of [os.RemoveAll] and every resource is still there. *)
Lemma delete_empty_names_keeps_local_store :
  dir (driver local_store_john) = "."
  ∧ (Delete "" "" local_store_john).1 = Err (PathError "RemoveAll" "." EINVAL)
  ∧ disk (Delete "" "" local_store_john).2 = disk local_store_john
  ∧ node_at (disk (Delete "" "" local_store_john).2) ["srv"; "app"; "users"; "john.json"]
    = Some (File ("true" +:+ newline)).
Proof. vm_compute. repeat split. Qed.

Lemma delete_empty_names_witness :
  (Delete "" "" data_store_john).1 = Ok tt
  ∧ node_at (disk (Delete "" "" data_store_john).2) ["srv"; "data"; "users"; "john.json"]
    = None.
Proof.
  pose proof (proj1 (proj2 (proj2 (proj2
    (delete_empty_names (VBool true) data_store_john))))) as Hdel.
  cbv zeta in Hdel. destruct Hdel as (Hok & Hgone & _).
  - vm_compute. discriminate.
  - vm_compute. reflexivity.
  - repeat split; vm_compute; (reflexivity || discriminate).
  - split; [exact Hok|]. apply Hgone. exists ["users"; "john.json"].
    vm_compute. reflexivity.
Defined.

Lemma readall_all_or_nothing_witness :
  ReadAll "users" data_store_users
  = (Ok ["true" +:+ newline; "false" +:+ newline], data_store_users).
Proof.
  pose proof (readall_all_or_nothing "users" data_store_users) as Hall.
  cbv zeta in Hall. destruct Hall as (_ & Hok & _).
  - discriminate.
  - apply (bool_decide_unpack _). vm_compute. exact I.
  - vm_compute. reflexivity.
  - apply Hok. vm_compute. repeat constructor.
Defined.

(** C4 fails on the code: the resource was written as [john], the caller
    reads it with the extension, and [Read] finds nothing; and when only the
    second probe of [stat] finds a file, [Read] still opens the first path. *)
Lemma read_with_extension_fails :
  Read "users" "john" (VBool false) data_store_john = (Ok (VBool true), data_store_john)
  ∧ Read "users" "john.json" (VBool false) data_store_john
    = (Err (PathError "stat" "/srv/data/users/john.json.json.json" ENOENT),
       data_store_john)
  ∧ is_ok (stat "/srv/data/users/john.json"
             (disk (Write "users" "john.json" (VBool true) data_store).2)) = true
  ∧ (Read "users" "john" (VBool false)
       (Write "users" "john.json" (VBool true) data_store).2).1
    = Err (PathError "open" "/srv/data/users/john.json" ENOENT).
Proof. vm_compute. repeat split. Qed.

(** C8 fails on the code: [stat] accepts the name because [john.json]
    exists, [ioutil.ReadDir] fails, and [ReadAll] returns an empty list and
    no error. *)
Lemma readall_drops_listing_error :
  is_ok (stat "/srv/data/users/john" (disk data_store_john)) = true
  ∧ ioutil.ReadDir "/srv/data/users/john" (disk data_store_john)
    = Err (PathError "open" "/srv/data/users/john" ENOENT)
  ∧ ReadAll "users/john" data_store_john = (Ok [], data_store_john)
  ∧ ioutil.ReadDir "/srv/data/users/john.json" (disk data_store_john)
    = Err (PathError "readdirent" "/srv/data/users/john.json" ENOTDIR)
  ∧ ReadAll "users/john.json" data_store_john = (Ok [], data_store_john).
Proof. vm_compute. repeat split. Qed.

(** ** Lemmas: names with a suffix *)

Lemma name_suffix_json : name_suffix ".json".
Proof. repeat split; try done; destruct l as [|c1 [|c2 [|c3 l]]]; intros [=]. Qed.

Lemma name_suffix_tmp : name_suffix ".tmp".
Proof. repeat split; try done; destruct l as [|c1 [|c2 [|c3 l]]]; intros [=]. Qed.

Lemma string_app_assoc (a b c : string) : (a +:+ b) +:+ c = a +:+ (b +:+ c).
Proof.
  induction a as [|x a IH]; [done|].
  change (String x ((a +:+ b) +:+ c) = String x (a +:+ (b +:+ c))). by f_equal.
Qed.

Lemma append_ne_self l suf : suf ≠ "" → l +:+ suf ≠ l.
Proof. intros Hs. induction l as [|c l IH]; [done|]. intros [=]. done. Qed.

Lemma IsAbs_suffix s suf :
  filepath.IsAbs suf = false → filepath.IsAbs (s +:+ suf) = filepath.IsAbs s.
Proof. intros Hs. by destruct s. Qed.

Lemma walk_step_name st x :
  x ≠ "" → x ≠ "." → x ≠ ".." → walk_step st x = x :: st.
Proof. intros. unfold walk_step. by rewrite !bool_decide_eq_false_2. Qed.

Lemma walk_step_length st x : (length (walk_step st x) ≤ S (length st))%nat.
Proof.
  unfold walk_step. repeat case_match; simpl; try lia. destruct st; simpl; lia.
Qed.

(** The path of a name with a suffix: the suffixed last piece, below the
    place the pieces before it lead to. *)
Lemma walk_suffix wd s suf :
  name_suffix suf →
  ∃ init l, strings.Split s = init ++ [l]
    ∧ walk wd s
      = walk_step (fold_left walk_step init (if filepath.IsAbs s then [] else rev wd)) l
    ∧ walk wd (s +:+ suf)
      = (l +:+ suf) :: fold_left walk_step init (if filepath.IsAbs s then [] else rev wd).
Proof.
  intros (Hp & Hne & Habs & Hname).
  destruct (Split_app_last s suf Hp) as (init & l & Hs & Hsuf).
  exists init, l. split; [done|]. unfold walk.
  rewrite IsAbs_suffix, Hs, Hsuf, !fold_left_app by done. cbn [fold_left].
  split; [done|]. destruct (Hname l) as (? & ? & ?). by apply walk_step_name.
Qed.

(** A name with a suffix never denotes the path of the name itself. *)
Lemma resolve_suffix_ne wd s suf :
  name_suffix suf → resolve wd (s +:+ suf) ≠ resolve wd s.
Proof.
  intros Hsuf. destruct (walk_suffix wd s suf Hsuf) as (init & l & _ & Hs & Hj).
  unfold resolve. rewrite Hs, Hj. intros Heq.
  apply (f_equal (@rev string)) in Heq. rewrite !rev_involutive in Heq.
  set (st := fold_left walk_step init _) in *.
  unfold walk_step in Heq. destruct Hsuf as (_ & Hne & _).
  repeat case_match.
  - apply (f_equal length) in Heq. simpl in Heq. lia.
  - apply (f_equal length) in Heq. destruct st; simpl in Heq; lia.
  - injection Heq as Heq. by apply append_ne_self in Heq.
Qed.

Lemma clean_step_entry rooted st x :
  entry_name x → filepath.clean_step rooted st x = x :: st.
Proof.
  intros [(? & ? & _) ?]. unfold filepath.clean_step.
  by rewrite !bool_decide_eq_false_2.
Qed.

(** The pieces of a cleaned name that ends in an entry name: they do not
    depend on that name. *)
Lemma Split_Clean_entry s :
  s ≠ "" →
  ∃ front, ∀ x, entry_name x →
    strings.Split (filepath.Clean (s +:+ "/" +:+ x)) = front ++ [x].
Proof.
  intros Hs.
  set (st := fold_left (filepath.clean_step (filepath.IsAbs s)) (strings.Split s) []).
  exists ((if filepath.IsAbs s then [""] else []) ++ rev st).
  intros x Hx. pose proof Hx as [(Hx1 & Hx2 & Hxp) Hx3].
  assert (Forall kept st) as Hst by (apply clean_kept; [apply Split_plain|done]).
  unfold filepath.Clean.
  rewrite IsAbs_app, Split_app_slash, Hxp, fold_left_app by done. fold st.
  cbn [fold_left]. rewrite clean_step_entry by done. cbn [rev].
  assert (Forall plain (rev st ++ [x])) as Hplain.
  { apply Forall_app. split; [|by constructor].
    apply Forall_rev. eapply Forall_impl; [exact Hst|]. by intros ? (_ & _ & ?). }
  destruct (filepath.IsAbs s).
  - change (strings.Split (String slash ?j)) with ("" :: strings.Split j).
    rewrite Split_Join; [done| |done]. by destruct (rev st).
  - destruct (rev st ++ [x]) as [|y l] eqn:Hout; [by destruct (rev st)|].
    rewrite Split_Join; [by rewrite <- Hout|done|done].
Qed.

Lemma entry_name_json r : plain r → entry_name (r +:+ ".json").
Proof.
  intros Hr. destruct (json_suffix_name r) as (H1 & H2 & H3).
  repeat split; try done.
  destruct (Split_app_last r ".json") as (init & l & Hs & Hj); [done|].
  unfold plain in *. rewrite Hr in Hs. rewrite Hj.
  destruct init as [|? [|]]; simplify_eq/=. done.
Qed.

(** For entry names, the name [Delete] probes with [.json] added is the name
    [Read] opens. *)
Lemma Join_entry_names c r :
  entry_name c → entry_name r → filepath.Join [c; r] = c +:+ "/" +:+ r.
Proof.
  intros [(Hc1 & Hc2 & Hcp) Hc3] [(Hr1 & Hr2 & Hrp) Hr3].
  rewrite Join_cons by done.
  change (strings.Join [c; r] "/") with (c +:+ "/" +:+ r).
  unfold filepath.Clean. rewrite IsAbs_app, (plain_not_abs c), Split_app_slash, Hcp, Hrp by done.
  simpl. unfold filepath.clean_step. by rewrite !bool_decide_eq_false_2.
Qed.

Lemma resolve_probe_json wd d c r :
  d ≠ "" → entry_name c → entry_name r →
  resolve wd (filepath.Join [d; filepath.Join [c; r]] +:+ ".json")
  = resolve wd (filepath.Join [d; c; r +:+ ".json"])
  ∧ resolve wd (filepath.Join [d; c; r +:+ ".json"]) = resolve wd d ++ [c; r +:+ ".json"]
  ∧ resolve wd (filepath.Join [d; filepath.Join [c; r]]) = resolve wd d ++ [c; r].
Proof.
  intros Hd Hc Hr.
  assert (entry_name (r +:+ ".json")) as Hrj by (apply entry_name_json, Hr).
  assert (∀ x, entry_name x →
            resolve wd (filepath.Join [d; c; x]) = resolve wd d ++ [c; x]) as H3.
  { intros x [(Hx1 & Hx2 & Hxp) Hx3]. destruct Hc as [(Hc1 & Hc2 & Hcp) Hc3].
    unfold resolve. rewrite walk_Join_3, Hcp, Hxp by done. cbn [fold_left].
    rewrite !walk_step_name by done. simpl. by rewrite <- app_assoc. }
  assert (filepath.Join [d; filepath.Join [c; r]] = filepath.Join [d; c; r]) as Hbase.
  { rewrite (Join_entry_names c r Hc Hr).
    rewrite (Join_cons d _ Hd). rewrite (Join_cons d [c; r] Hd). reflexivity. }
  split; [|split; [by apply H3|by rewrite Hbase; apply H3]].
  rewrite Hbase. unfold resolve, walk. f_equal.
  rewrite !Join_cons by done.
  change (strings.Join [d; c; r] "/") with (d +:+ "/" +:+ c +:+ "/" +:+ r).
  change (strings.Join [d; c; r +:+ ".json"] "/")
    with (d +:+ "/" +:+ c +:+ "/" +:+ r +:+ ".json").
  rewrite IsAbs_suffix, !IsAbs_Clean, !IsAbs_app by done.
  destruct (Split_Clean_entry (d +:+ "/" +:+ c)) as [front Hfront]; [by destruct d|].
  pose proof (Hfront r Hr) as H1. pose proof (Hfront _ Hrj) as H2.
  rewrite string_app_assoc in H1, H2.
  change (d +:+ ("/" +:+ c) +:+ "/" +:+ ?x) with (d +:+ "/" +:+ c +:+ "/" +:+ x) in H1, H2.
  rewrite H2.
  destruct (Split_app_last (filepath.Clean (d +:+ "/" +:+ c +:+ "/" +:+ r)) ".json")
    as (init & l & Hs & ->); [done|].
  rewrite H1 in Hs. apply app_inj_tail in Hs as [-> ->]. done.
Qed.

(** ** Lemmas: what the file-system calls change *)

Lemma node_at_cons fs p : p ≠ [] → node_at fs p = nodes fs !! p.
Proof. by destruct p. Qed.

(** A successful [os.MkdirAll] leaves a directory at the path. *)
Lemma MkdirAll_ok_dir name fs fs' :
  os.MkdirAll name fs = (Ok tt, fs') →
  cwd fs' = cwd fs ∧ node_at fs' (resolve (cwd fs) name) = Some Dir.
Proof.
  unfold os.MkdirAll. intros H.
  destruct (mkdirAll_grows (os.parents (rev (strings.Split name))) name fs)
    as [(Hcwd & _) Hok].
  rewrite H in Hcwd, Hok. split; [done|]. by apply Hok.
Qed.

Lemma Join_Split s : strings.Join (strings.Split s) "/" = s.
Proof.
  induction s as [|c s IH]; [done|].
  change (strings.Split (String c s))
    with (if Ascii.eqb c slash then "" :: strings.Split s
          else match strings.Split s with
               | x :: l => String c x :: l
               | [] => [String c ""]
               end).
  destruct (strings.Split s) as [|x l] eqn:Hs; [by destruct (Split_nonempty s)|].
  destruct (Ascii.eqb c slash) eqn:Hc.
  - apply Ascii.eqb_eq in Hc as ->.
    change (strings.Join ("" :: x :: l) "/") with ("/" +:+ strings.Join (x :: l) "/").
    by rewrite IH.
  - destruct l as [|y l]; [simpl in *; congruence|].
    change (strings.Join (String c x :: y :: l) "/")
      with (String c (strings.Join (x :: y :: l) "/")).
    by rewrite IH.
Qed.

Lemma Join_snoc l x :
  l ≠ [] → strings.Join (l ++ [x]) "/" = strings.Join l "/" +:+ "/" +:+ x.
Proof.
  induction l as [|y l IH]; [done|]. intros _. destruct l as [|z l]; [done|].
  change (strings.Join ((y :: z :: l) ++ [x]) "/")
    with (y +:+ "/" +:+ strings.Join ((z :: l) ++ [x]) "/").
  rewrite IH by done.
  change (strings.Join (y :: z :: l) "/") with (y +:+ "/" +:+ strings.Join (z :: l) "/").
  by rewrite !string_app_assoc.
Qed.

Lemma Join_empty l : strings.Join l "/" = "" → l = [] ∨ l = [""].
Proof.
  destruct l as [|x [|y l]]; [by left|by simpl; intros ->; right|].
  change (strings.Join (x :: y :: l) "/") with (x +:+ "/" +:+ strings.Join (y :: l) "/").
  by destruct x.
Qed.

Lemma parents_Join pieces :
  os.parents pieces ≠ [] → strings.Join (rev pieces) "/" ≠ "".
Proof.
  intros Hp [Hl|Hl]%Join_empty.
  - apply (f_equal (@rev string)) in Hl. rewrite rev_involutive in Hl. by subst.
  - apply (f_equal (@rev string)) in Hl. rewrite rev_involutive in Hl. by subst.
Qed.

Lemma mkdirAll_existing name ps fs n :
  name ≠ "" → node_at fs (resolve (cwd fs) name) = Some n →
  (os.mkdirAll name ps fs).2 = fs.
Proof.
  intros Hn Hp. rewrite mkdirAll_eq, (Stat_node _ _ n) by done. simpl. by destruct n.
Qed.

Lemma parent_rev (st : list string) : parent (rev st) = rev (tail st).
Proof.
  destruct st as [|x st]; [done|]. unfold parent. simpl. by rewrite removelast_last.
Qed.

(** An error of [os.MkdirAll] leaves the file system as it was: the error
    comes from the name nearest to the root that had to be looked at, before
    any directory is made. *)
Lemma mkdirAll_parents_err pieces : ∀ name fs e fs',
  Forall plain pieces →
  (os.parents pieces ≠ [] →
   name ≠ "" ∧ ∀ wd, walk wd name = walk wd (strings.Join (rev pieces) "/")) →
  os.mkdirAll name (os.parents pieces) fs = (Err e, fs') → fs' = fs.
Proof.
  assert (∀ name fs e fs', os.mkdirAll name [] fs = (Err e, fs') → fs' = fs) as Hnil.
  { intros name fs e fs'. rewrite mkdirAll_eq.
    destruct (os.Stat name fs) as [fi|e0]; [destruct (IsDir fi); by intros [= <-]|].
    destruct (Mkdir_Lstat name fs) as (_ & _ & Herr). cbv zeta in Herr. intros H.
    rewrite H in Herr. by destruct (Herr e eq_refl) as [? _]. }
  induction pieces as [|x pieces IH]; intros name fs e fs' Hpl Hname; [apply Hnil|].
  inversion_clear Hpl as [|? ? Hx Hpl']. cbn [os.parents].
  case_bool_decide as Hx0.
  { subst x. destruct (decide (os.parents pieces = [])) as [Hps|Hps];
      [rewrite Hps; apply Hnil|].
    apply IH; [done|]. intros _. cbn [os.parents] in Hname.
    rewrite bool_decide_eq_true_2 in Hname by done.
    destruct (Hname Hps) as [Hn Hw]. split; [done|]. intros wd. rewrite Hw.
    cbn [rev]. rewrite Join_snoc.
    - by rewrite walk_slash by (by apply parents_Join).
    - intros Hnil'. apply (f_equal (@rev string)) in Hnil'.
      rewrite rev_involutive in Hnil'. by subst. }
  case_bool_decide as Hpar; [apply Hnil|].
  set (up := strings.Join (rev pieces) "/") in *.
  cbn [os.parents] in Hname. rewrite !bool_decide_eq_false_2 in Hname by done.
  destruct Hname as [Hn Hw]; [done|].
  assert (∀ wd, walk wd name = walk_step (walk wd up) x) as Hstep.
  { intros wd. rewrite Hw. cbn [rev]. rewrite Join_snoc.
    - fold up. rewrite walk_slash by done. by rewrite Hx.
    - intros Hnil'. subst up. by rewrite Hnil' in Hpar. }
  rewrite mkdirAll_eq.
  destruct (os.Stat name fs) as [fi|e0] eqn:HS; [destruct (IsDir fi); by intros [= <-]|].
  apply Stat_err_inv in HS; [|done].
  destruct (mkdirAll_grows (os.parents pieces) up fs) as [Hg Hok].
  destruct (os.mkdirAll up (os.parents pieces) fs) as [[[]|e1] fs1] eqn:Hsub;
    cbn [fst snd] in *.
  2:{ intros [= -> ->]. apply (IH up fs e fs'); [done|by intros _|done]. }
  specialize (Hok eq_refl). pose proof Hg as (Hcwd & _ & Hnew).
  destruct (Mkdir_Lstat name fs1) as (_ & _ & Herr). cbv zeta in Herr. intros H.
  rewrite H in Herr. cbn [fst snd] in Herr.
  destruct (Herr e eq_refl) as [-> Hwhy]. clear Herr H.
  rewrite Hcwd in Hwhy.
  destruct Hwhy as [?|[[data Hf]|[Hp Hnopar]]]; [done| |].
  - (* a regular file at the name: it was there before *)
    assert (resolve (cwd fs) name ≠ []) as Hp0 by (by intros Hnil'; rewrite Hnil' in HS).
    rewrite node_at_cons in Hf, HS by done.
    destruct (Hnew _ _ Hf) as [?|(_ & _ & ? & _)]; congruence.
  - (* nothing at the name, and no directory above it *)
    unfold resolve in Hp, Hnopar, Hok. rewrite Hstep in Hp, Hnopar.
    unfold walk_step in Hp, Hnopar.
    destruct (bool_decide (x = "") || bool_decide (x = ".")); [congruence|].
    case_bool_decide.
    + rewrite <- parent_rev in Hp.
      destruct (rev (walk (cwd fs) up)) as [|y q] eqn:Hq; [done|].
      cbn [node_at] in Hok. destruct (Hnew _ _ Hok) as [Hold|(_ & _ & _ & Hup)].
      * rewrite <- (mkdirAll_existing up (os.parents pieces) fs Dir); [by rewrite Hsub|done|].
        unfold resolve. by rewrite Hq.
      * congruence.
    + rewrite parent_rev in Hnopar. cbn [tail] in Hnopar. congruence.
Qed.

Lemma MkdirAll_err name fs e fs' : os.MkdirAll name fs = (Err e, fs') → fs' = fs.
Proof.
  unfold os.MkdirAll. apply mkdirAll_parents_err.
  - apply Forall_rev, Split_plain.
  - intros Hne. rewrite rev_involutive, Join_Split. split; [|done].
    intros ->. by apply Hne.
Qed.




Lemma WriteFile_ok_nodes name data fs fs' :
  ioutil.WriteFile name data fs = (Ok tt, fs') →
  resolve (cwd fs) name ≠ []
  ∧ node_at fs (resolve (cwd fs) name) ≠ Some Dir
  ∧ fs' = set_nodes fs (<[resolve (cwd fs) name := File data]> (nodes fs)).
Proof.
  unfold ioutil.WriteFile. case_bool_decide; [done|].
  destruct (resolve (cwd fs) name) as [|x p] eqn:Hp; [done|].
  destruct (node_at fs (parent (x :: p))) as [[|]|]; [done| |done].
  destruct (node_at fs (x :: p)) as [[|]|]; intros ?; by simplify_eq.
Qed.

Lemma WriteFile_err name data fs e fs' :
  ioutil.WriteFile name data fs = (Err e, fs') → fs' = fs.
Proof.
  unfold ioutil.WriteFile. case_bool_decide; [by intros [= _ <-]|].
  destruct (resolve (cwd fs) name) as [|x p]; [by intros [= _ <-]|].
  destruct (node_at fs (parent (x :: p))) as [[|]|]; try by intros [= _ <-].
  destruct (node_at fs (x :: p)) as [[|]|]; intros ?; by simplify_eq.
Qed.

Lemma Rename_file_ok_nodes old new data fs fs' :
  os.Rename old new fs = (Ok tt, fs') →
  node_at fs (resolve (cwd fs) old) = Some (File data) →
  resolve (cwd fs) new ≠ []
  ∧ node_at fs (resolve (cwd fs) new) ≠ Some Dir
  ∧ fs' = set_nodes fs (<[resolve (cwd fs) new := File data]>
                          (delete (resolve (cwd fs) old) (nodes fs))).
Proof.
  intros H Hold.
  destruct (Rename_file_cases old new data fs Hold) as [[e He]|(Hn & Hd & Hok)];
    [congruence|]. rewrite Hok in H. by injection H as <-.
Qed.

Lemma Rename_file_err old new data fs e fs' :
  os.Rename old new fs = (Err e, fs') →
  node_at fs (resolve (cwd fs) old) = Some (File data) → fs' = fs.
Proof.
  intros H Hold.
  destruct (Rename_file_cases old new data fs Hold) as [[e' He]|(_ & _ & Hok)];
    congruence.
Qed.

Lemma New_on_node dir fs n :
  node_at fs (resolve (cwd fs) dir) = Some n →
  New dir fs = (Ok tt, mkWorld (mkDriver ∅ (filepath.Clean dir)) 0 fs).
Proof.
  intros Hn. unfold New.
  by rewrite (Stat_node _ fs n); [|apply Clean_nonempty|rewrite resolve_Clean].
Qed.

(** ** Opening a store *)

(** X1.  [New] on a name where something exists, a directory or a regular
    file, returns no error and changes nothing; the driver has the cleaned
    name and an empty registry. *)
Theorem New_existing dir fs n :
  node_at fs (resolve (cwd fs) dir) = Some n →
  New dir fs = (Ok tt, mkWorld (mkDriver ∅ (filepath.Clean dir)) 0 fs).
Proof. apply New_on_node. Qed.

(** X2.  [New] on a name where nothing exists returns what [os.MkdirAll]
    returns: on success the root is a directory, on failure the file system
    is as before; either way no file is created, changed or removed. *)
Theorem New_missing dir fs :
  node_at fs (resolve (cwd fs) dir) = None →
  driver (New dir fs).2 = mkDriver ∅ (filepath.Clean dir)
  ∧ heap (New dir fs).2 = 0
  ∧ ((New dir fs).1 = Ok tt →
     node_at (disk (New dir fs).2) (resolve (cwd fs) dir) = Some Dir)
  ∧ (∀ e, (New dir fs).1 = Err e → disk (New dir fs).2 = fs)
  ∧ nodes fs ⊆ nodes (disk (New dir fs).2)
  ∧ ∀ p data, nodes (disk (New dir fs).2) !! p = Some (File data) →
              nodes fs !! p = Some (File data).
Proof.
  intros Hn. unfold New.
  destruct (Stat_None (filepath.Clean dir) fs) as [e ->]; [by rewrite resolve_Clean|].
  cbn [is_ok].
  pose proof (MkdirAll_adds_dirs (filepath.Clean dir) fs) as [Hsub Hfiles].
  destruct (os.MkdirAll (filepath.Clean dir) fs) as [[[]|e'] fs'] eqn:Hmk;
    cbn [fst snd driver heap disk] in *; repeat split; try done.
  - intros _. apply MkdirAll_ok_dir in Hmk as [_ Hd]. by rewrite resolve_Clean in Hd.
  - intros e'' _. by apply MkdirAll_err in Hmk.
Qed.

Section DriverProperties.

Context {value : Type} `{!json.Codec value}.

Lemma Read_eq c r (dst : value) w :
  c ≠ "" → r ≠ "" →
  let record := filepath.Join [dir (driver w); c; r +:+ ".json"] in
  Read c r dst w =
    (match stat record (disk w) with
     | Err e => Err e
     | Ok _ =>
         match ioutil.ReadFile record (disk w) with
         | Err e => Err e
         | Ok b => json.Unmarshal b dst
         end
     end, w).
Proof.
  intros Hc Hr. cbv zeta. unfold Read. rewrite !bool_decide_eq_false_2 by done.
  unfold bind, from_disk. destruct (stat _ _); [|done].
  by destruct (ioutil.ReadFile _ _).
Qed.

(** X3.  [Read] and [ReadAll] change nothing: neither the file system nor the
    lock registry. *)
Theorem reads_change_nothing c r (dst : value) w :
  (Read c r dst w).2 = w ∧ (ReadAll c w).2 = w.
Proof.
  split.
  - unfold Read. repeat case_bool_decide; try done.
    unfold bind, from_disk. destruct (stat _ _); [|done].
    by destruct (ioutil.ReadFile _ _).
  - unfold ReadAll. case_bool_decide; [done|].
    unfold bind, from_disk. destruct (stat _ _); [|done].
    apply readRecords_world.
Qed.

Lemma Read_ok_inv c r (dst v : value) w :
  (Read c r dst w).1 = Ok v →
  c ≠ "" ∧ r ≠ ""
  ∧ ∃ b, node_at (disk w)
           (resolve (cwd (disk w)) (filepath.Join [dir (driver w); c; r +:+ ".json"]))
         = Some (File b)
         ∧ json.Unmarshal b dst = Ok v.
Proof.
  intros HR.
  assert (c ≠ "") as Hc by (intros ->; by unfold Read in HR).
  assert (r ≠ "") as Hr.
  { intros ->. unfold Read in HR. by rewrite bool_decide_eq_false_2 in HR. }
  split; [done|]. split; [done|].
  rewrite Read_eq in HR by done. cbn [fst] in HR.
  set (record := filepath.Join [dir (driver w); c; r +:+ ".json"]) in *.
  assert (record ≠ "") as Hne by by apply Join_3_nonempty.
  rewrite (ReadFile_node record) in HR by done.
  destruct (node_at (disk w) (resolve (cwd (disk w)) record)) as [[b|]|] eqn:Hn.
  - exists b. split; [done|]. by rewrite (stat_node record _ (File b)) in HR.
  - by rewrite (stat_node record _ Dir) in HR.
  - by destruct (stat _ _).
Qed.

Lemma Read_file c r (dst : value) b w :
  c ≠ "" → r ≠ "" →
  node_at (disk w)
    (resolve (cwd (disk w)) (filepath.Join [dir (driver w); c; r +:+ ".json"]))
  = Some (File b) →
  Read c r dst w = (json.Unmarshal b dst, w).
Proof.
  intros Hc Hr Hn. rewrite Read_eq by done.
  assert (filepath.Join [dir (driver w); c; r +:+ ".json"] ≠ "") as Hne
    by by apply Join_3_nonempty.
  by rewrite (stat_node _ _ (File b)), (ReadFile_file _ _ b).
Qed.

(** X4.  [Read c r] succeeds exactly when a regular file is at
    [<root>/c/r.json] and its content decodes; the second probe of [stat]
    never makes a read succeed. *)
Theorem Read_succeeds_iff c r (dst v : value) w :
  c ≠ "" → r ≠ "" →
  let record := filepath.Join [dir (driver w); c; r +:+ ".json"] in
  (Read c r dst w).1 = Ok v
  ↔ ∃ b, node_at (disk w) (resolve (cwd (disk w)) record) = Some (File b)
         ∧ json.Unmarshal b dst = Ok v.
Proof.
  intros Hc Hr record. split.
  - by intros (_ & _ & ?)%Read_ok_inv.
  - intros (b & Hb & Hv). by rewrite (Read_file c r dst b).
Qed.

(** What [Write] did when it got as far as the file-system calls. *)
Lemma Write_cases c r (v : value) w :
  c ≠ "" → r ≠ "" →
  let d := filepath.Join [dir (driver w); c] in
  let fnl := filepath.Join [d; r +:+ ".json"] in
  let tmp := fnl +:+ ".tmp" in
  let fs := disk w in
  let pf := resolve (cwd fs) fnl in
  let pt := resolve (cwd fs) tmp in
  let fs1 := (os.MkdirAll d fs).2 in
  (∃ e, (Write c r v w).1 = Err e
        ∧ (disk (Write c r v w).2 = fs1
           ∨ ∃ b, disk (Write c r v w).2
                  = set_nodes fs1 (<[pt := File b]> (nodes fs1))))
  ∨ (∃ b, json.MarshalIndent v "" tab = Ok b
          ∧ Write c r v w
            = (Ok tt, with_disk (getOrCreateMutex c w).2
                        (set_nodes fs1
                           (<[pf := File (b +:+ newline)]>
                              (delete pt (<[pt := File (b +:+ newline)]> (nodes fs1))))))
          ∧ node_at fs1 (resolve (cwd fs) d) = Some Dir
          ∧ pt ≠ resolve (cwd fs) d ∧ pf ≠ resolve (cwd fs) d ∧ pt ≠ [] ∧ pf ≠ []).
Proof.
  intros Hc Hr d fnl tmp fs pf pt fs1. rewrite Write_eq by done.
  fold d fnl tmp fs. subst fs1.
  destruct (os.MkdirAll d fs) as [[[]|e] fs1] eqn:Hmk; cbn [fst snd];
    [|left; exists e; split; [done|by left]].
  apply MkdirAll_ok_dir in Hmk as [Hcwd1 Hd].
  destruct (json.MarshalIndent v "" tab) as [b|e];
    [|left; exists e; split; [done|by left]].
  destruct (ioutil.WriteFile tmp (b +:+ newline) fs1) as [[[]|e] fs2] eqn:Hwf;
    [|left; exists e; split; [done|left; by apply WriteFile_err in Hwf]].
  apply WriteFile_ok_nodes in Hwf as (Hpt & Hptd & ->).
  rewrite Hcwd1 in Hpt, Hptd |- *. fold pt in Hpt, Hptd |- *.
  set (fs2 := set_nodes fs1 _).
  assert (node_at fs2 (resolve (cwd fs2) tmp) = Some (File (b +:+ newline))) as Ht.
  { cbn [cwd fs2 set_nodes]. rewrite Hcwd1. fold pt.
    rewrite node_at_cons by done. subst fs2. cbn [nodes set_nodes].
    by rewrite lookup_insert_eq. }
  destruct (os.Rename tmp fnl fs2) as [[[]|e] fs3] eqn:Hrn; cbn [fst snd with_disk disk].
  - right. exists b. split; [done|].
    destruct (Rename_file_ok_nodes _ _ _ _ _ Hrn Ht) as (Hpf & Hpfd & Hfs3).
    rewrite Hfs3. clear Hrn Hfs3.
    cbn [cwd fs2 set_nodes] in Hpf, Hpfd |- *.
    rewrite Hcwd1 in Hpf, Hpfd |- *. fold pf pt in Hpf, Hpfd |- *.
    repeat split; try done.
    + by intros Heq; rewrite Heq in Hptd.
    + intros Heq. apply Hpfd. rewrite Heq.
      rewrite node_at_cons by (by rewrite <- Heq). subst fs2. cbn [nodes set_nodes].
      rewrite lookup_insert_ne; [by rewrite <- node_at_cons by (by rewrite <- Heq)|].
      intros Heq'. by rewrite Heq' in Hptd.
  - left. exists e. split; [done|]. right. exists (b +:+ newline).
    by rewrite (Rename_file_err _ _ _ _ _ _ Hrn Ht).
Qed.

(** X5.  A successful [Write] changes one file.  The target holds the encoded
    value and a newline, the temporary file is gone, every other path keeps
    its node, and nothing else appears except directories. *)
Theorem Write_ok_one_file c r (v : value) w w' :
  Write c r v w = (Ok tt, w') →
  let d := filepath.Join [dir (driver w); c] in
  let fnl := filepath.Join [d; r +:+ ".json"] in
  let pf := resolve (cwd (disk w)) fnl in
  let pt := resolve (cwd (disk w)) (fnl +:+ ".tmp") in
  pt ≠ pf
  ∧ node_at (disk w') pt = None
  ∧ (∃ b, json.MarshalIndent v "" tab = Ok b
          ∧ node_at (disk w') pf = Some (File (b +:+ newline)))
  ∧ (∀ q n, q ≠ pf → q ≠ pt →
            nodes (disk w) !! q = Some n → nodes (disk w') !! q = Some n)
  ∧ (∀ q data, q ≠ pf → q ≠ pt →
               nodes (disk w') !! q = Some (File data) →
               nodes (disk w) !! q = Some (File data)).
Proof.
  intros Hw d fnl pf pt.
  assert (c ≠ "") as Hc by (intros ->; by unfold Write in Hw).
  assert (r ≠ "") as Hr.
  { intros ->. unfold Write in Hw. by rewrite bool_decide_eq_false_2 in Hw. }
  assert (pt ≠ pf) as Hne by apply resolve_suffix_ne, name_suffix_tmp.
  destruct (Write_cases c r v w Hc Hr) as [(e & He & _)|(b & Hm & Hok & _ & _ & _ & Hpt & Hpf)].
  { by rewrite Hw in He. }
  fold d fnl pf pt in Hok, Hpt, Hpf. rewrite Hw in Hok. injection Hok as ->.
  cbn [with_disk disk].
  pose proof (MkdirAll_adds_dirs d (disk w)) as [Hsub Hfiles].
  split; [done|]. split; [|split; [|split]].
  - rewrite node_at_cons by done. cbn [set_nodes nodes].
    by rewrite lookup_insert_ne, lookup_delete_eq.
  - exists b. split; [done|]. rewrite node_at_cons by done. cbn [set_nodes nodes].
    by rewrite lookup_insert_eq.
  - intros q n Hq1 Hq2 Hq. cbn [set_nodes nodes].
    rewrite lookup_insert_ne, lookup_delete_ne, lookup_insert_ne by done.
    by apply (lookup_weaken _ _ _ _ Hq).
  - intros q data Hq1 Hq2. cbn [set_nodes nodes].
    rewrite lookup_insert_ne, lookup_delete_ne, lookup_insert_ne by done.
    apply Hfiles.
Qed.

(** X6.  A [Write] that returns an error has changed no regular file other
    than the temporary one: the previous version of the resource, and every
    other resource, is as it was. *)
Theorem Write_err_keeps_files c r (v : value) e w :
  (Write c r v w).1 = Err e →
  let d := filepath.Join [dir (driver w); c] in
  let fnl := filepath.Join [d; r +:+ ".json"] in
  let pf := resolve (cwd (disk w)) fnl in
  let pt := resolve (cwd (disk w)) (fnl +:+ ".tmp") in
  pf ≠ pt
  ∧ ∀ q data, q ≠ pt →
      nodes (disk (Write c r v w).2) !! q = Some (File data)
      ↔ nodes (disk w) !! q = Some (File data).
Proof.
  intros He d fnl pf pt.
  split; [apply not_eq_sym, resolve_suffix_ne, name_suffix_tmp|].
  intros q data Hq.
  destruct (decide (c = "")) as [->|Hc]; [done|].
  destruct (decide (r = "")) as [->|Hr].
  { unfold Write. by rewrite bool_decide_eq_false_2. }
  pose proof (MkdirAll_adds_dirs d (disk w)) as [Hsub Hfiles].
  assert (nodes (os.MkdirAll d (disk w)).2 !! q = Some (File data)
          ↔ nodes (disk w) !! q = Some (File data)) as Hmk.
  { split; [apply Hfiles|]. intros Hq'. by apply (lookup_weaken _ _ _ _ Hq'). }
  destruct (Write_cases c r v w Hc Hr) as [(e' & _ & [->| [b ->]])|(b & _ & Hok & _)].
  - done.
  - cbn [set_nodes nodes]. fold d fnl pt. by rewrite lookup_insert_ne.
  - by rewrite Hok in He.
Qed.

(** X7.  [Write] with non-empty names, and [Delete] with any names, leave a
    lock registered under the collection name, whatever they return. *)
Theorem calls_register_lock c r (v : value) w :
  (c ≠ "" → r ≠ "" → is_Some (mutexes (driver (Write c r v w).2) !! c))
  ∧ is_Some (mutexes (driver (Delete c r w).2) !! c).
Proof.
  assert (is_Some (mutexes (driver (getOrCreateMutex c w).2) !! c)) as Hreg.
  { unfold getOrCreateMutex. destruct (mutexes (driver w) !! c) eqn:Hc; cbn [snd].
    - by rewrite Hc.
    - cbn [driver mutexes]. by rewrite lookup_insert_eq. }
  split.
  - intros Hc Hr. rewrite Write_eq by done.
    destruct (os.MkdirAll _ _) as [[[]|?] ?]; [|done].
    destruct (json.MarshalIndent _ _ _); [|done].
    by destruct (ioutil.WriteFile _ _ _) as [[[]|?] ?].
  - rewrite Delete_eq. destruct (stat _ _) as [fi|?]; [|done]. by destruct (IsDir fi).
Qed.


End DriverProperties.

(** ** The registry of a store *)

Lemma getOrCreateMutex_registry c w :
  registry_ok w → registry_ok (getOrCreateMutex c w).2.
Proof.
  intros (Hfresh & Hinj & Hsize). unfold getOrCreateMutex.
  destruct (mutexes (driver w) !! c) as [m|] eqn:Hc; [done|].
  cbn [snd]. repeat split; cbn [driver mutexes heap].
  - intros c' m'. rewrite lookup_insert. case_decide.
    + intros [= <-]. lia.
    + intros Hm%Hfresh. lia.
  - intros c1 c2 m. rewrite !lookup_insert. repeat case_decide; try congruence.
    + intros [= <-] Hm%Hfresh. lia.
    + intros Hm%Hfresh [= <-]. lia.
    + apply Hinj.
  - by rewrite map_size_insert_None, Hsize.
Qed.

Lemma registry_ok_eq w w' :
  driver w' = driver w → heap w' = heap w → registry_ok w → registry_ok w'.
Proof. unfold registry_ok. by intros -> ->. Qed.

Section RegistryInvariant.

Context {value : Type} `{!json.Codec value}.

Lemma Write_registry c r (v : value) w :
  (driver (Write c r v w).2 = driver w ∧ heap (Write c r v w).2 = heap w)
  ∨ (driver (Write c r v w).2 = driver (getOrCreateMutex c w).2
     ∧ heap (Write c r v w).2 = heap (getOrCreateMutex c w).2).
Proof.
  destruct (decide (c = "")) as [->|Hc]; [by left|].
  destruct (decide (r = "")) as [->|Hr].
  { left. unfold Write. by rewrite bool_decide_eq_false_2. }
  right. rewrite Write_eq by done.
  destruct (os.MkdirAll _ _) as [[[]|?] ?]; [|done].
  destruct (json.MarshalIndent _ _ _); [|done].
  by destruct (ioutil.WriteFile _ _ _) as [[[]|?] ?].
Qed.

Lemma Delete_registry c r w :
  driver (Delete c r w).2 = driver (getOrCreateMutex c w).2
  ∧ heap (Delete c r w).2 = heap (getOrCreateMutex c w).2.
Proof.
  rewrite Delete_eq. destruct (stat _ _) as [fi|?]; [|done]. by destruct (IsDir fi).
Qed.

Lemma Read_world c r (dst : value) w : (Read c r dst w).2 = w.
Proof.
  unfold Read. repeat case_bool_decide; try done.
  unfold bind, from_disk. destruct (stat _ _); [|done].
  by destruct (ioutil.ReadFile _ _).
Qed.

Lemma ReadAll_world c w : (ReadAll c w).2 = w.
Proof.
  unfold ReadAll. case_bool_decide; [done|].
  unfold bind, from_disk. destruct (stat _ _); [|done]. apply readRecords_world.
Qed.

Lemma run_call_registry (c : call value) w : registry_ok w → registry_ok (run_call c w).
Proof.
  intros Hw. destruct c as [c r v|c r v|c|c r]; cbn [run_call].
  - destruct (Write_registry c r v w) as [[Hd Hh]|[Hd Hh]].
    + by apply (registry_ok_eq w).
    + apply (registry_ok_eq (getOrCreateMutex c w).2); [done..|].
      by apply getOrCreateMutex_registry.
  - by rewrite Read_world.
  - by rewrite ReadAll_world.
  - destruct (Delete_registry c r w) as [Hd Hh].
    apply (registry_ok_eq (getOrCreateMutex c w).2); [done..|].
    by apply getOrCreateMutex_registry.
Qed.

(** X9.  In a store opened by [New], after any run of calls, two different
    collection names never share a lock, and exactly as many lock objects
    have been made as there are names in the registry. *)
Theorem one_lock_per_name dir fs (cs : list (call value)) :
  let w := run_calls cs (New dir fs).2 in
  (∀ c1 c2 m, mutexes (driver w) !! c1 = Some m →
              mutexes (driver w) !! c2 = Some m → c1 = c2)
  ∧ size (mutexes (driver w)) = heap w.
Proof.
  intros w.
  assert (registry_ok (New dir fs).2) as H0.
  { unfold New. destruct (is_ok _); [|destruct (os.MkdirAll _ _)];
      repeat split; cbn [snd driver mutexes heap]; intros *;
      rewrite ?lookup_empty; done. }
  assert (registry_ok w) as (_ & Hinj & Hsize); [|done].
  subst w. generalize dependent (New dir fs).2. clear.
  induction cs as [|c cs IH]; intros w Hw; [done|].
  cbn [run_calls fold_left]. apply IH. by apply run_call_registry.
Qed.

End RegistryInvariant.

(** ** How the calls compose *)

Lemma readRecords_inv d files records l w w' :
  readRecords d files records w = (Ok l, w') →
  ∃ l', l = records ++ l'
        ∧ Forall2 (λ file s, ioutil.ReadFile (filepath.Join [d; Name file]) (disk w) = Ok s)
            files l'.
Proof.
  revert records. induction files as [|file files IH]; intros records.
  - intros [= <- _]. exists []. by rewrite app_nil_r.
  - cbn [readRecords]. unfold bind, from_disk.
    destruct (ioutil.ReadFile _ _) as [s|e] eqn:Hs; [|done].
    intros (l' & -> & Hl')%IH. exists (s :: l').
    rewrite <- app_assoc. split; [done|]. by constructor.
Qed.

Lemma removable_entry wd d x :
  d ≠ "" → entry_name x → removable wd (filepath.Join [d; x]).
Proof.
  intros Hd Hx. pose proof Hx as [(Hx1 & Hx2 & _) Hx3].
  destruct (Split_Clean_entry d Hd) as [front Hfront].
  rewrite Join_cons by done.
  change (strings.Join [d; x] "/") with (d +:+ "/" +:+ x).
  repeat split.
  - apply Clean_nonempty.
  - unfold endsWithDot. rewrite Hfront, last_snoc by done.
    apply bool_decide_eq_false_2. congruence.
  - unfold endsWithDotDot. rewrite Hfront, last_snoc by done.
    apply bool_decide_eq_false_2. congruence.
  - rewrite resolve_Clean. unfold resolve. rewrite walk_slash by done.
    destruct Hx as [(_ & _ & ->) _]. cbn [fold_left].
    rewrite walk_step_name by done. simpl. by destruct (rev _).
Qed.

(** The name of a collection directory with [.json] added denotes the entry
    beside the directory. *)
Lemma resolve_entry_json wd d x :
  d ≠ "" → entry_name x →
  resolve wd (filepath.Join [d; x] +:+ ".json") = resolve wd d ++ [x +:+ ".json"].
Proof.
  intros Hd Hx.
  destruct (Split_Clean_entry d Hd) as [front Hfront].
  pose proof (Hfront x Hx) as H1.
  pose proof (Hfront _ (entry_name_json x (proj2 (proj2 (proj1 Hx))))) as H2.
  rewrite <- (resolve_Join_entry wd d (x +:+ ".json"))
    by (done || apply entry_name_json, Hx).
  rewrite !Join_cons by done.
  change (strings.Join [d; ?y] "/") with (d +:+ "/" +:+ y).
  unfold resolve, walk. f_equal.
  rewrite IsAbs_suffix, !IsAbs_Clean, !IsAbs_app by done. rewrite H2.
  destruct (Split_app_last (filepath.Clean (d +:+ "/" +:+ x)) ".json")
    as (init & l & Hs & ->); [done|].
  rewrite H1 in Hs. by apply app_inj_tail in Hs as [-> ->].
Qed.

Lemma prefix_snoc_ne (p : list string) x y : x ≠ y → ¬ (p ++ [x]) `prefix_of` (p ++ [y]).
Proof.
  intros Hxy [k Hk]. rewrite <- app_assoc in Hk. apply app_inv_head in Hk.
  simpl in Hk. by injection Hk.
Qed.

(** [Delete] of a stored resource, named without extension. *)
Lemma Delete_stored c r b w :
  dir (driver w) ≠ "" → entry_name c → entry_name r →
  node_at (disk w)
    (resolve (cwd (disk w)) (filepath.Join [dir (driver w); c; r +:+ ".json"]))
  = Some (File b) →
  os.IsNotExist
    (os.Stat (filepath.Join [dir (driver w); filepath.Join [c; r]]) (disk w)) = true →
  (Delete c r w).1 = Ok tt
  ∧ dir (driver (Delete c r w).2) = dir (driver w)
  ∧ cwd (disk (Delete c r w).2) = cwd (disk w)
  ∧ node_at (disk (Delete c r w).2)
      (resolve (cwd (disk w)) (filepath.Join [dir (driver w); c; r +:+ ".json"]))
    = None.
Proof.
  intros Hd Hc Hr Hfile Habs.
  destruct (resolve_probe_json (cwd (disk w)) (dir (driver w)) c r Hd Hc Hr)
    as (Hprobe & _ & _).
  set (base := filepath.Join [dir (driver w); filepath.Join [c; r]]) in *.
  rewrite <- Hprobe in Hfile |- *.
  pose proof (removable_json (cwd (disk w)) base) as Hrem.
  destruct (RemoveAll_spec _ _ Hrem) as (Hok & Hcwd & Hgone & _).
  assert (Delete c r w
          = ((os.RemoveAll (base +:+ ".json") (disk w)).1,
             with_disk (getOrCreateMutex c w).2
               (os.RemoveAll (base +:+ ".json") (disk w)).2)) as ->.
  { rewrite Delete_eq. fold base. unfold stat. rewrite Habs.
    by rewrite (Stat_node _ _ (File b)); [|apply Hrem|]. }
  cbn [fst snd with_disk disk driver]. rewrite getOrCreateMutex_dir.
  repeat split; [done..|]. by apply Hgone.
Qed.

(** [Delete] of a resource named with the extension: the stored file stays. *)
Lemma Delete_with_extension c r b w :
  dir (driver w) ≠ "" → entry_name c → entry_name r →
  node_at (disk w)
    (resolve (cwd (disk w)) (filepath.Join [dir (driver w); c; r +:+ ".json"]))
  = Some (File b) →
  (Delete c (r +:+ ".json") w).1 = Ok tt
  ∧ dir (driver (Delete c (r +:+ ".json") w).2) = dir (driver w)
  ∧ cwd (disk (Delete c (r +:+ ".json") w).2) = cwd (disk w)
  ∧ node_at (disk (Delete c (r +:+ ".json") w).2)
      (resolve (cwd (disk w)) (filepath.Join [dir (driver w); c; r +:+ ".json"]))
    = Some (File b).
Proof.
  intros Hd Hc Hr Hfile.
  assert (entry_name (r +:+ ".json")) as Hrj by apply entry_name_json, Hr.
  destruct (resolve_probe_json (cwd (disk w)) (dir (driver w)) c (r +:+ ".json") Hd Hc Hrj)
    as (Hprobe & Hrecj & Hbase).
  destruct (resolve_probe_json (cwd (disk w)) (dir (driver w)) c r Hd Hc Hr)
    as (_ & Hrec & _).
  set (base := filepath.Join [dir (driver w); filepath.Join [c; r +:+ ".json"]]) in *.
  assert (base ≠ "") as Hne by by apply Join_nonempty.
  rewrite Hrec in Hfile |- *. rewrite <- Hbase in Hfile.
  pose proof (removable_json (cwd (disk w)) base) as Hrem.
  destruct (RemoveAll_spec _ _ Hrem) as (Hok & Hcwd & _ & Hrest).
  assert (Delete c (r +:+ ".json") w
          = ((os.RemoveAll (base +:+ ".json") (disk w)).1,
             with_disk (getOrCreateMutex c w).2
               (os.RemoveAll (base +:+ ".json") (disk w)).2)) as ->.
  { rewrite Delete_eq. fold base. by rewrite (stat_node base _ (File b)). }
  cbn [fst snd with_disk disk driver]. rewrite getOrCreateMutex_dir.
  repeat split; [done..|]. rewrite <- Hbase, Hrest; [done|].
  rewrite Hprobe, Hrecj, Hbase.
  change (resolve (cwd (disk w)) (dir (driver w)) ++ [c; ?x])
    with (resolve (cwd (disk w)) (dir (driver w)) ++ [c] ++ [x]).
  rewrite !app_assoc. apply prefix_snoc_ne. by apply append_ne_self.
Qed.

(** [Delete] of a whole collection. *)
Lemma Delete_collection c w :
  let d := filepath.Join [dir (driver w); c] in
  let fs := disk w in
  dir (driver w) ≠ "" → entry_name c →
  node_at fs (resolve (cwd fs) d) = Some Dir →
  node_at fs (resolve (cwd fs) (d +:+ ".json")) = None →
  (Delete c "" w).1 = Ok tt
  ∧ dir (driver (Delete c "" w).2) = dir (driver w)
  ∧ cwd (disk (Delete c "" w).2) = cwd fs
  ∧ (∀ q, resolve (cwd fs) d `prefix_of` q → node_at (disk (Delete c "" w).2) q = None)
  ∧ ∃ e, stat d (disk (Delete c "" w).2) = Err e.
Proof.
  intros d fs Hroot Hc Hdir Hjson. pose proof Hc as [(Hc1 & _) _].
  assert (d ≠ "") as Hd by by apply Join_2_nonempty.
  pose proof (removable_entry (cwd fs) _ c Hroot Hc) as Hrem. fold d in Hrem.
  destruct (RemoveAll_spec d fs Hrem) as (Hok & Hcwd & Hgone & Hrest).
  assert (Delete c "" w
          = ((os.RemoveAll d fs).1,
             with_disk (getOrCreateMutex c w).2 (os.RemoveAll d fs).2)) as ->.
  { rewrite Delete_eq. rewrite Join_slash, Clean_entry_name by done. fold d fs.
    rewrite (stat_node d fs Dir Hd Hdir). reflexivity. }
  cbn [fst snd with_disk disk driver]. rewrite getOrCreateMutex_dir.
  repeat split; [done..|].
  apply stat_None; rewrite Hcwd.
  - intros _. by apply Hgone.
  - rewrite Hrest; [done|]. subst d.
    rewrite resolve_entry_json, resolve_Join_entry by done.
    apply prefix_snoc_ne. by apply not_eq_sym, append_ne_self.
Qed.

Section Compositions.

Context {value : Type} `{!json.Codec value}.

(** X10.  Write, delete, read.  For entry names [c] and [r] and a store with a
    named root: after a successful [Write c r v], with nothing named [r]
    (without extension) in the collection, [Delete c r] returns no error and
    a following [Read c r] fails. *)
Theorem write_delete_read c r (v dst : value) w w1 :
  dir (driver w) ≠ "" → entry_name c → entry_name r →
  Write c r v w = (Ok tt, w1) →
  os.IsNotExist
    (os.Stat (filepath.Join [dir (driver w); filepath.Join [c; r]]) (disk w1)) = true →
  (Delete c r w1).1 = Ok tt
  ∧ ∃ e, (Read c r dst (Delete c r w1).2).1 = Err e.
Proof.
  intros Hd Hc Hr Hw Habs.
  apply Write_ok_file in Hw as (_ & _ & Hdir & b & _ & Hfile).
  rewrite <- Hdir in Hd, Habs, Hfile.
  destruct (Delete_stored c r _ w1 Hd Hc Hr Hfile Habs) as (Hok & Hdir' & Hcwd & Hgone).
  split; [done|].
  destruct (Read c r dst _) as [[v'|e] w2] eqn:HR; [|by exists e].
  exfalso. assert ((Read c r dst (Delete c r w1).2).1 = Ok v') as HR' by by rewrite HR.
  apply Read_ok_inv in HR' as (_ & _ & b' & Hb' & _).
  by rewrite Hdir', Hcwd, Hgone in Hb'.
Qed.

Lemma Write_listed c r (v : value) w w1 l :
  plain r →
  Write c r v w = (Ok tt, w1) →
  (ReadAll c w1).1 = Ok l →
  ∃ b, json.MarshalIndent v "" tab = Ok b ∧ (b +:+ newline) ∈ l.
Proof.
  intros Hr Hw Hl.
  assert (c ≠ "") as Hc by (intros ->; by unfold Write in Hw).
  assert (r ≠ "") as Hr'.
  { intros ->. unfold Write in Hw. by rewrite bool_decide_eq_false_2 in Hw. }
  pose proof (Write_ok_file _ _ _ _ _ Hw) as (_ & _ & Hdir & b & Hm & Hfile).
  exists b. split; [done|].
  destruct (Write_cases c r v w Hc Hr') as [(e & He & _)|(b' & _ & Hok & Hd & Hptd & Hpfd & _)].
  { by rewrite Hw in He. }
  set (d := filepath.Join [dir (driver w); c]) in *.
  rewrite Hw in Hok. apply (f_equal snd) in Hok. cbn [snd] in Hok. rename Hok into Hw1.
  assert (d ≠ "") as Hdne by by apply Join_2_nonempty.
  assert (cwd (disk w1) = cwd (disk w)) as Hcwd.
  { rewrite Hw1. cbn [with_disk disk set_nodes cwd]. apply MkdirAll_cwd. }
  set (pc := resolve (cwd (disk w)) d) in *.
  assert (node_at (disk w1) pc = Some Dir) as Hpc.
  { destruct (decide (pc = [])) as [->|Hne]; [done|].
    rewrite node_at_cons in Hd |- * by done. rewrite Hw1.
    cbn [with_disk disk set_nodes nodes].
    by rewrite lookup_insert_ne, lookup_delete_ne, lookup_insert_ne. }
  rewrite <- resolve_Join_nested in Hfile by done. fold d in Hfile.
  assert (resolve (cwd (disk w1)) (filepath.Join [d; r +:+ ".json"])
          = pc ++ [r +:+ ".json"]) as Hpf.
  { rewrite Hcwd. apply resolve_Join_entry; [done|by apply entry_name_json]. }
  rewrite ReadAll_eq in Hl by done. rewrite Hdir in Hl. fold d in Hl.
  rewrite (stat_node d _ Dir) in Hl by (done || by rewrite Hcwd).
  destruct (ReadDir_dir d (disk w1)) as (files & Hfiles & Hnames);
    [done|by rewrite Hcwd|].
  rewrite Hfiles in Hl. rewrite Hcwd in Hnames. fold pc in Hnames.
  destruct (readRecords d files [] w1) as [res w2] eqn:HR. cbn [fst] in Hl. subst res.
  apply readRecords_inv in HR as (l' & -> & Hl').
  assert ((r +:+ ".json") ∈ children (disk w1) pc) as Hin.
  { apply elem_of_children. rewrite Hpf in Hfile.
    rewrite node_at_cons in Hfile by (by destruct pc). by rewrite Hfile. }
  rewrite <- Hnames in Hin. apply list_elem_of_fmap in Hin as (file & Hname & Hin).
  apply list_elem_of_lookup in Hin as [i Hi].
  destruct (Forall2_lookup_l _ _ _ _ _ Hl' Hi) as (s & Hs & Hread).
  rewrite <- Hname in Hread.
  rewrite (ReadFile_file _ _ (b +:+ newline)) in Hread;
    [|by apply Join_nonempty|done].
  injection Hread as <-. simpl. by apply list_elem_of_lookup_2 in Hs.
Qed.

(** X11.  Write, then list.  For a resource name without separator: after a
    successful [Write c r v], whenever [ReadAll c] returns a list, the
    encoded value and its newline is in it. *)
Theorem write_then_readall c r (v : value) w w1 l :
  plain r →
  Write c r v w = (Ok tt, w1) →
  (ReadAll c w1).1 = Ok l →
  ∃ b, json.MarshalIndent v "" tab = Ok b ∧ (b +:+ newline) ∈ l.
Proof. apply Write_listed. Qed.

(** X12.  Delete a collection, then read.  For an entry name [c] whose
    directory exists in a store with a named root, with no [c.json] beside
    it: [Delete c ""] returns no error and removes the directory with
    everything in it, and afterwards [ReadAll c] fails, and so does
    [Read c r] for every resource name [r] without separator. *)
Theorem delete_collection_then_read c r (dst : value) w :
  let d := filepath.Join [dir (driver w); c] in
  let fs := disk w in
  let w' := (Delete c "" w).2 in
  dir (driver w) ≠ "" → entry_name c → plain r →
  node_at fs (resolve (cwd fs) d) = Some Dir →
  node_at fs (resolve (cwd fs) (d +:+ ".json")) = None →
  (Delete c "" w).1 = Ok tt
  ∧ (∀ q, resolve (cwd fs) d `prefix_of` q → node_at (disk w') q = None)
  ∧ (∃ e, (ReadAll c w').1 = Err e)
  ∧ (∃ e, (Read c r dst w').1 = Err e).
Proof.
  intros d fs w' Hroot Hc Hplain Hdir Hjson. pose proof Hc as [(Hc1 & _) _].
  destruct (Delete_collection c w Hroot Hc Hdir Hjson)
    as (Hok & Hdir' & Hcwd' & Hgone & e & Hstat).
  fold d fs w' in Hok, Hdir', Hcwd', Hgone, Hstat.
  assert (d ≠ "") as Hd by by apply Join_2_nonempty.
  split; [done|]. split; [done|]. split.
  - exists e. rewrite ReadAll_eq by done. rewrite Hdir'. fold d. by rewrite Hstat.
  - destruct (decide (r = "")) as [->|Hr].
    { eexists. unfold Read. by rewrite bool_decide_eq_false_2. }
    destruct (Read c r dst w') as [[v|e'] w2] eqn:HR; [|by exists e'].
    exfalso. assert ((Read c r dst w').1 = Ok v) as HR' by by rewrite HR.
    apply Read_ok_inv in HR' as (_ & _ & b & Hb & _).
    rewrite Hdir', Hcwd', <- resolve_Join_nested in Hb by done. fold d in Hb.
    rewrite resolve_Join_entry in Hb by (done || by apply entry_name_json).
    rewrite Hgone in Hb; [done|]. by apply prefix_app_r.
Qed.

End Compositions.

(** ** Lemmas and theorems: the handlers *)

Section HandlerProperties.

Context `{!json.Codec main.User}.

(** X13.  [/addUser] answers 400 to a body that does not parse and 500 to a
    user whose name is empty; in both cases nothing is stored and no lock is
    registered. *)
Theorem addUser_rejected (parsed : result main.User) w :
  (∀ e, parsed = Err e →
        main.addUser parsed w
        = (main.mkResponse 400 (main.Text "Error parsing request body"), w))
  ∧ (∀ user, parsed = Ok user → main.Name user = "" →
        main.addUser parsed w
        = (main.mkResponse 500 (main.Text "Error saving user data"), w)).
Proof.
  split; [by intros e ->|]. intros user -> Hname. unfold main.addUser.
  rewrite Hname. unfold Write. by rewrite bool_decide_eq_false_2.
Qed.

(** X14.  Add, then get.  When [/addUser] answers 201 for a user whose
    encoding decodes back to it, [/getUser] with the user's name answers 200
    with that user, and changes nothing. *)
Theorem addUser_then_getUser (user : main.User) b w :
  json.MarshalIndent user "" tab = Ok b →
  json.Unmarshal (b +:+ newline) main.zeroUser = Ok user →
  main.Status (main.addUser (Ok user) w).1 = 201 →
  main.getUser (main.Name user) (main.addUser (Ok user) w).2
  = (main.mkResponse 200 (main.JSON user), (main.addUser (Ok user) w).2).
Proof.
  intros Hm Hu. unfold main.addUser.
  destruct (Write "users" (main.Name user) user w) as [[[]|e] w1] eqn:Hw; [|done].
  intros _. cbn [snd].
  apply Write_ok_file in Hw as (_ & Hname & Hdir & b' & Hm' & Hfile).
  rewrite Hm in Hm'. injection Hm' as <-.
  unfold main.getUser. rewrite bool_decide_eq_false_2 by done.
  rewrite <- Hdir in Hfile.
  by rewrite (Read_file "users" _ main.zeroUser (b +:+ newline)), Hu.
Qed.

(** X15.  Delete, then get.  In a store with a named root, for a user stored
    under an entry name, with nothing of that name without extension beside
    it: [/deleteUser] answers 200 and a following [/getUser] answers 500. *)
Theorem deleteUser_then_getUser name b w :
  dir (driver w) ≠ "" → entry_name name →
  node_at (disk w)
    (resolve (cwd (disk w)) (filepath.Join [dir (driver w); "users"; name +:+ ".json"]))
  = Some (File b) →
  os.IsNotExist
    (os.Stat (filepath.Join [dir (driver w); filepath.Join ["users"; name]]) (disk w))
  = true →
  (main.deleteUser name w).1
  = main.mkResponse 200 (main.Text "User deleted successfully")
  ∧ main.Status (main.getUser name (main.deleteUser name w).2).1 = 500.
Proof.
  intros Hd Hn Hfile Habs. pose proof Hn as [(Hn1 & _) _].
  assert (entry_name "users") as Hu by (by repeat split).
  destruct (Delete_stored "users" name b w Hd Hu Hn Hfile Habs)
    as (Hok & Hdir & Hcwd & Hgone).
  destruct (Delete "users" name w) as [res w1] eqn:HD. cbn [fst snd] in *. subst res.
  assert (main.deleteUser name w
          = (main.mkResponse 200 (main.Text "User deleted successfully"), w1)) as ->.
  { unfold main.deleteUser. by rewrite bool_decide_eq_false_2, HD. }
  cbn [fst snd]. split; [done|].
  unfold main.getUser. rewrite bool_decide_eq_false_2 by done.
  destruct (Read "users" name main.zeroUser w1) as [[u|e] w2] eqn:HR; [|done].
  exfalso. assert ((Read "users" name main.zeroUser w1).1 = Ok u) as HR' by by rewrite HR.
  apply Read_ok_inv in HR' as (_ & _ & b' & Hb' & _).
  by rewrite Hdir, Hcwd, Hgone in Hb'.
Qed.

(** X16.  [/deleteUser] with the extension in the name.  In a store with a
    named root, for a user stored under an entry name [name]: the request
    for [name.json] is answered 200 "User deleted successfully", the stored
    file is still there, and [/getUser name] answers as before. *)
Theorem deleteUser_with_extension name b w :
  dir (driver w) ≠ "" → entry_name name →
  node_at (disk w)
    (resolve (cwd (disk w)) (filepath.Join [dir (driver w); "users"; name +:+ ".json"]))
  = Some (File b) →
  let w' := (main.deleteUser (name +:+ ".json") w).2 in
  (main.deleteUser (name +:+ ".json") w).1
  = main.mkResponse 200 (main.Text "User deleted successfully")
  ∧ node_at (disk w')
      (resolve (cwd (disk w)) (filepath.Join [dir (driver w); "users"; name +:+ ".json"]))
    = Some (File b)
  ∧ (main.getUser name w').1 = (main.getUser name w).1.
Proof.
  intros Hd Hn Hfile w'. pose proof Hn as [(Hn1 & _) _].
  assert (entry_name "users") as Hu by (by repeat split).
  destruct (Delete_with_extension "users" name b w Hd Hu Hn Hfile)
    as (Hok & Hdir & Hcwd & Hkept).
  destruct (Delete "users" (name +:+ ".json") w) as [res w1] eqn:HD.
  cbn [fst snd] in *. subst res.
  assert (main.deleteUser (name +:+ ".json") w
          = (main.mkResponse 200 (main.Text "User deleted successfully"), w1)) as HA.
  { unfold main.deleteUser.
    by rewrite bool_decide_eq_false_2, HD by apply (json_suffix_name name). }
  subst w'. rewrite HA. cbn [fst snd]. split; [done|]. split; [done|].
  unfold main.getUser. rewrite bool_decide_eq_false_2 by done.
  rewrite <- Hcwd in Hkept. rewrite <- Hdir in Hkept.
  rewrite (Read_file "users" name main.zeroUser b w) by done.
  rewrite (Read_file "users" name main.zeroUser b w1) by done.
  by destruct (json.Unmarshal b main.zeroUser).
Qed.

(** X17.  Delete all, then list.  In a store with a named root whose [users]
    directory exists, with no [users.json] beside it: [/deleteAllUsers]
    answers 200, a following [/getAllUsers] answers 500, and a second
    [/deleteAllUsers] answers 500. *)
Theorem deleteAllUsers_then_getAllUsers w :
  let d := filepath.Join [dir (driver w); "users"] in
  let w' := (main.deleteAllUsers w).2 in
  dir (driver w) ≠ "" →
  node_at (disk w) (resolve (cwd (disk w)) d) = Some Dir →
  node_at (disk w) (resolve (cwd (disk w)) (d +:+ ".json")) = None →
  (main.deleteAllUsers w).1
  = main.mkResponse 200 (main.Text "All users deleted successfully")
  ∧ (main.getAllUsers w').1
    = main.mkResponse 500 (main.Text "Error retrieving all users")
  ∧ (main.deleteAllUsers w').1
    = main.mkResponse 500 (main.Text "Error deleting all user data").
Proof.
  intros d w' Hd Hdir Hjson.
  assert (entry_name "users") as Hu by (by repeat split).
  destruct (Delete_collection "users" w Hd Hu Hdir Hjson)
    as (Hok & Hdir' & Hcwd & _ & e & Hstat).
  destruct (Delete "users" "" w) as [res w1] eqn:HD. cbn [fst snd] in *. subst res.
  assert (main.deleteAllUsers w
          = (main.mkResponse 200 (main.Text "All users deleted successfully"), w1)) as HA.
  { unfold main.deleteAllUsers. by rewrite HD. }
  subst w'. rewrite HA. cbn [fst snd]. split; [done|]. fold d in Hstat. split.
  - unfold main.getAllUsers. rewrite ReadAll_eq by done. rewrite Hdir'. fold d.
    by rewrite Hstat.
  - unfold main.deleteAllUsers. rewrite Delete_eq.
    rewrite Join_slash, Clean_entry_name by done. rewrite Hdir'. fold d.
    by rewrite Hstat.
Qed.

Lemma parseRecords_inv records allUsers l :
  main.parseRecords records allUsers = Ok l →
  ∃ l', l = allUsers ++ l'
        ∧ Forall2 (λ record user, json.Unmarshal record main.zeroUser = Ok user)
            records l'.
Proof.
  revert allUsers. induction records as [|record records IH]; intros allUsers.
  - intros [= <-]. exists []. by rewrite app_nil_r.
  - cbn [main.parseRecords].
    destruct (json.Unmarshal record main.zeroUser) as [user|e] eqn:Hu; [|done].
    intros (l' & -> & Hl')%IH. exists (user :: l').
    rewrite <- app_assoc. split; [done|]. by constructor.
Qed.

(** X18.  Add, then list.  When [/addUser] answers 201 for a user whose name
    has no separator and whose encoding decodes back to it, every 200 answer
    of a following [/getAllUsers] has that user in its list. *)
Theorem addUser_then_getAllUsers (user : main.User) b w allUsers :
  plain (main.Name user) →
  json.MarshalIndent user "" tab = Ok b →
  json.Unmarshal (b +:+ newline) main.zeroUser = Ok user →
  main.Status (main.addUser (Ok user) w).1 = 201 →
  (main.getAllUsers (main.addUser (Ok user) w).2).1
  = main.mkResponse 200 (main.JSONList allUsers) →
  user ∈ allUsers.
Proof.
  intros Hp Hm Hu. unfold main.addUser.
  destruct (Write "users" (main.Name user) user w) as [[[]|e] w1] eqn:Hw; [|done].
  intros _. cbn [snd]. unfold main.getAllUsers.
  destruct (ReadAll "users" w1) as [[records|e] w2] eqn:HR; [|done].
  destruct (main.parseRecords records []) as [l|e] eqn:HP; [|done].
  intros [= <-].
  destruct (Write_listed "users" (main.Name user) user w w1 records Hp Hw)
    as (b' & Hm' & Hin); [by rewrite HR|].
  rewrite Hm in Hm'. injection Hm' as <-.
  apply parseRecords_inv in HP as (l' & -> & Hl'). simpl.
  apply list_elem_of_lookup in Hin as [i Hi].
  destruct (Forall2_lookup_l _ _ _ _ _ Hl' Hi) as (u & Hu' & Hdec).
  rewrite Hu in Hdec. injection Hdec as <-. by apply list_elem_of_lookup_2 in Hu'.
Qed.

End HandlerProperties.

(** ** Names are taken as they come *)

Lemma registry_ok_New dir0 fs : registry_ok (New dir0 fs).2.
Proof.
  unfold New. destruct (is_ok _); [|destruct (os.MkdirAll _ _)];
    repeat split; cbn [snd driver mutexes heap]; intros *;
    rewrite ?lookup_empty; done.
Qed.

Section Names.

Context {value : Type} `{!json.Codec value}.

Lemma registry_ok_run_calls (cs : list (call value)) w :
  registry_ok w → registry_ok (run_calls cs w).
Proof.
  revert w. induction cs as [|c cs IH]; intros w Hw; [done|].
  cbn [run_calls fold_left]. apply IH. by apply run_call_registry.
Qed.

(** X19.  A lock goes with the spelling of a collection name, not with the
    directory.  For an entry name [c], the names [c] and [c/] denote the same
    collection directory, and in a store opened by [New], after any run of
    calls, [getOrCreateMutex] gives them two different locks. *)
Theorem lock_per_spelling root fs (cs : list (call value)) c :
  entry_name c →
  let w := run_calls cs (New root fs).2 in
  let first := getOrCreateMutex c w in
  let second := getOrCreateMutex (c +:+ "/") first.2 in
  filepath.Join [dir (driver w); c +:+ "/"] = filepath.Join [dir (driver w); c]
  ∧ first.1 ≠ second.1.
Proof.
  intros Hc w first second. pose proof Hc as [(Hc1 & _) _]. split.
  - assert (∀ d, filepath.Join [d; c +:+ "/"] = filepath.Join [d; c]) as HJ; [|apply HJ].
    intros d. destruct (decide (d = "")) as [->|Hd].
    + change (filepath.Join [""; ?x]) with (filepath.Join [x]).
      rewrite !Join_cons by (done || by destruct c).
      change (strings.Join [?x] "/") with x. by apply Clean_slash.
    + rewrite !Join_cons by done.
      change (strings.Join [d; ?x] "/") with (d +:+ "/" +:+ x).
      rewrite <- (Clean_slash (d +:+ "/" +:+ c)) by (by destruct d).
      by rewrite !string_app_assoc.
  - assert (registry_ok second.2) as (_ & Hinj & _).
    { subst second first w. do 2 apply getOrCreateMutex_registry.
      apply registry_ok_run_calls, registry_ok_New. }
    assert (∀ name w0, ∃ m, (getOrCreateMutex name w0).1 = Ok m
              ∧ mutexes (driver (getOrCreateMutex name w0).2) !! name = Some m) as Hreg.
    { intros name w0. unfold getOrCreateMutex.
      destruct (mutexes (driver w0) !! name) as [m|] eqn:Hm; cbn [fst snd].
      - by exists m.
      - exists (heap w0). cbn [driver mutexes]. by rewrite lookup_insert_eq. }
    destruct (Hreg c w) as (m1 & Hm1 & Hl1). fold first in Hm1, Hl1.
    destruct (Hreg (c +:+ "/") first.2) as (m2 & Hm2 & Hl2). fold second in Hm2, Hl2.
    rewrite Hm1, Hm2. intros [= <-].
    pose proof (monotone_getOrCreateMutex (c +:+ "/") first.2) as [Hsub _].
    fold second in Hsub. apply (lookup_weaken _ _ _ _ Hl1) in Hsub.
    apply (append_ne_self c "/"); [done|]. by apply (Hinj _ _ m1).
Qed.

(** X20.  A resource name is not confined to its collection.  In a store with
    a named root, for entry names [c] and [x], a successful
    [Write c "../x" v] leaves the encoded value in [<root>/x.json], beside
    the collection directory. *)
Theorem Write_outside_collection c x (v : value) w w' :
  dir (driver w) ≠ "" → entry_name c → entry_name x →
  Write c ("../" +:+ x) v w = (Ok tt, w') →
  ∃ b, json.MarshalIndent v "" tab = Ok b
       ∧ node_at (disk w')
           (resolve (cwd (disk w)) (dir (driver w)) ++ [x +:+ ".json"])
         = Some (File (b +:+ newline)).
Proof.
  intros Hd Hc Hx Hw.
  pose proof (MkdirAll_cwd (filepath.Join [dir (driver w); c]) (disk w)) as Hcwd0.
  pose proof Hw as Hw'.
  apply Write_ok_file in Hw as (_ & _ & _ & b & Hm & Hfile).
  exists b. split; [done|].
  assert (cwd (disk w') = cwd (disk w)) as Hcwd.
  { destruct (Write_cases c ("../" +:+ x) v w) as [(e & He & _)|(b' & _ & Hok & _)];
      [by destruct Hc as [(? & _) _]|done|by rewrite Hw' in He|].
    rewrite Hw' in Hok. apply (f_equal snd) in Hok. cbn [snd] in Hok. by rewrite Hok. }
  rewrite Hcwd in Hfile. rewrite <- Hfile. f_equal.
  unfold resolve. rewrite walk_Join_3 by done.
  destruct Hc as [(Hc1 & Hc2 & Hcp) Hc3].
  destruct (entry_name_json x (proj2 (proj2 (proj1 Hx)))) as [(Hj1 & Hj2 & Hjp) Hj3].
  rewrite Hcp. cbn [fold_left]. rewrite (walk_step_name _ c) by done.
  change (("../" +:+ x) +:+ ".json") with (".." +:+ "/" +:+ (x +:+ ".json")).
  rewrite Split_app_slash, Hjp.
  change (strings.Split "..") with [".."]. cbn [app fold_left].
  change (walk_step (c :: ?st) "..") with st.
  by rewrite walk_step_name by done.
Qed.

End Names.

(** ** The example stores, continued *)

Lemma New_existing_witness :
  New "./" app_fs = (Ok tt, mkWorld (mkDriver ∅ (filepath.Clean "./")) 0 app_fs).
Proof. apply (New_existing "./" app_fs Dir). vm_compute. reflexivity. Defined.

Lemma New_missing_witness :
  node_at (disk (New "/srv/data" app_fs).2) (resolve (cwd app_fs) "/srv/data") = Some Dir.
Proof.
  refine (proj1 (proj2 (proj2 (New_missing "/srv/data" app_fs _))) _);
    vm_compute; reflexivity.
Defined.


Lemma Read_succeeds_iff_witness :
  (Read "users" "john" (VBool false) data_store_john).1 = Ok (VBool true).
Proof.
  refine (proj2 (Read_succeeds_iff "users" "john" (VBool false) (VBool true)
                   data_store_john _ _) _).
  - discriminate.
  - discriminate.
  - exists ("true" +:+ newline). split; vm_compute; reflexivity.
Defined.

Lemma Write_ok_one_file_witness :
  node_at (disk data_store_john)
    (resolve (cwd (disk data_store)) "/srv/data/users/john.json.tmp") = None.
Proof.
  refine (proj1 (proj2 (Write_ok_one_file "users" "john" (VBool true) data_store
                          data_store_john _))).
  vm_compute. reflexivity.
Defined.

Lemma Write_err_keeps_files_witness :
  nodes (disk (Write "users" "john" VChan data_store_john).2)
    !! ["srv"; "data"; "users"; "john.json"] = Some (File ("true" +:+ newline)).
Proof.
  refine (proj2 (proj2 (Write_err_keeps_files "users" "john" VChan
                          (JSONError "json: unsupported type: chan int")
                          data_store_john _)
                   ["srv"; "data"; "users"; "john.json"] ("true" +:+ newline) _) _).
  - vm_compute. reflexivity.
  - vm_compute. discriminate.
  - vm_compute. reflexivity.
Defined.

Lemma calls_register_lock_witness :
  is_Some (mutexes (driver (Write "users" "john" VChan data_store).2) !! "users").
Proof.
  refine (proj1 (calls_register_lock "users" "john" VChan data_store) _ _);
    discriminate.
Defined.

Lemma write_delete_read_witness :
  (Delete "users" "john" data_store_john).1 = Ok tt
  ∧ ∃ e, (Read "users" "john" (VBool false) (Delete "users" "john" data_store_john).2).1
         = Err e.
Proof.
  refine (write_delete_read "users" "john" (VBool true) (VBool false) data_store
            data_store_john _ _ _ _ _).
  - vm_compute. discriminate.
  - apply (bool_decide_unpack _). vm_compute. exact I.
  - apply (bool_decide_unpack _). vm_compute. exact I.
  - vm_compute. reflexivity.
  - vm_compute. reflexivity.
Defined.

Lemma write_then_readall_witness :
  ∃ b, json.MarshalIndent (VBool true) "" tab = Ok b
       ∧ (b +:+ newline) ∈ ["true" +:+ newline].
Proof.
  refine (write_then_readall "users" "john" (VBool true) data_store data_store_john
            _ _ _ _).
  - reflexivity.
  - vm_compute. reflexivity.
  - vm_compute. reflexivity.
Defined.

Lemma delete_collection_then_read_witness :
  (Delete "users" "" data_store_john).1 = Ok tt
  ∧ ∃ e, (ReadAll "users" (Delete "users" "" data_store_john).2).1 = Err e.
Proof.
  pose proof (delete_collection_then_read "users" "john" (VBool false) data_store_john)
    as Hdel.
  cbv zeta in Hdel. destruct Hdel as (Hok & _ & Hall & _).
  - vm_compute. discriminate.
  - apply (bool_decide_unpack _). vm_compute. exact I.
  - reflexivity.
  - vm_compute. reflexivity.
  - vm_compute. reflexivity.
  - split; [exact Hok|exact Hall].
Defined.

Lemma one_lock_per_name_witness :
  let w := run_calls [CallWrite "users" "john" (VBool true); CallDelete "posts" "first"]
             (New "/srv/data" app_fs).2 in
  size (mutexes (driver w)) = heap w.
Proof.
  exact (proj2 (one_lock_per_name "/srv/data" app_fs
                  [CallWrite "users" "john" (VBool true); CallDelete "posts" "first"])).
Defined.

Lemma addUser_rejected_witness :
  main.addUser (Ok main.zeroUser) data_store
  = (main.mkResponse 500 (main.Text "Error saving user data"), data_store).
Proof.
  refine (proj2 (addUser_rejected (Ok main.zeroUser) data_store) main.zeroUser _ _);
    reflexivity.
Defined.

Lemma addUser_then_getUser_witness :
  main.getUser "john" users_store
  = (main.mkResponse 200 (main.JSON john), users_store).
Proof.
  refine (addUser_then_getUser john
            (strings.Join (user_lines tab john) newline) data_store _ _ _);
    vm_compute; reflexivity.
Defined.

Lemma deleteUser_then_getUser_witness :
  (main.deleteUser "john" users_store).1
  = main.mkResponse 200 (main.Text "User deleted successfully")
  ∧ main.Status (main.getUser "john" (main.deleteUser "john" users_store).2).1 = 500.
Proof.
  refine (deleteUser_then_getUser "john"
            (strings.Join (user_lines tab john) newline +:+ newline) users_store _ _ _ _).
  - vm_compute. discriminate.
  - apply (bool_decide_unpack _). vm_compute. exact I.
  - vm_compute. reflexivity.
  - vm_compute. reflexivity.
Defined.

Lemma deleteUser_with_extension_witness :
  (main.deleteUser "john.json" users_store).1
  = main.mkResponse 200 (main.Text "User deleted successfully")
  ∧ (main.getUser "john" (main.deleteUser "john.json" users_store).2).1
    = (main.getUser "john" users_store).1.
Proof.
  pose proof (deleteUser_with_extension "john"
                (strings.Join (user_lines tab john) newline +:+ newline) users_store)
    as Hdel.
  cbv zeta in Hdel. destruct Hdel as (Hok & _ & Hget).
  - vm_compute. discriminate.
  - apply (bool_decide_unpack _). vm_compute. exact I.
  - vm_compute. reflexivity.
  - split; [exact Hok|exact Hget].
Defined.

Lemma deleteAllUsers_then_getAllUsers_witness :
  (main.getAllUsers (main.deleteAllUsers users_store).2).1
  = main.mkResponse 500 (main.Text "Error retrieving all users").
Proof.
  pose proof (deleteAllUsers_then_getAllUsers users_store) as Hdel.
  cbv zeta in Hdel. destruct Hdel as (_ & Hget & _).
  - vm_compute. discriminate.
  - vm_compute. reflexivity.
  - vm_compute. reflexivity.
  - exact Hget.
Defined.

Lemma addUser_then_getAllUsers_witness :
  (main.getAllUsers (main.addUser (Ok john) data_store).2).1
  = main.mkResponse 200 (main.JSONList [john])
  ∧ john ∈ [john].
Proof.
  split; [vm_compute; reflexivity|].
  refine (addUser_then_getAllUsers john
            (strings.Join (user_lines tab john) newline) data_store [john] _ _ _ _ _);
    vm_compute; reflexivity.
Defined.

Lemma lock_per_spelling_witness :
  (getOrCreateMutex "users" data_store_john).1
  ≠ (getOrCreateMutex "users/" (getOrCreateMutex "users" data_store_john).2).1.
Proof.
  refine (proj2 (lock_per_spelling "/srv/data" app_fs
                   [CallWrite "users" "john" (VBool true)] "users" _)).
  apply (bool_decide_unpack _). vm_compute. exact I.
Defined.

Lemma Write_outside_collection_witness :
  ∃ b, json.MarshalIndent (VBool true) "" tab = Ok b
       ∧ node_at (disk (Write "users" "../paul" (VBool true) data_store_john).2)
           (resolve (cwd (disk data_store_john)) (dir (driver data_store_john))
            ++ ["paul.json"])
         = Some (File (b +:+ newline)).
Proof.
  refine (Write_outside_collection "users" "paul" (VBool true) data_store_john
            (Write "users" "../paul" (VBool true) data_store_john).2 _ _ _ _).
  - vm_compute. discriminate.
  - apply (bool_decide_unpack _). vm_compute. exact I.
  - apply (bool_decide_unpack _). vm_compute. exact I.
  - vm_compute. reflexivity.
Defined.
